(** * Rectal air intervention check: a shallow embedding of
      [Rectal_Air_Intervention_Check.py] (class [Model]) and its properties.

    The script accumulates the dose grids of the delivered fractions, scales
    the mean fraction dose to the full course, evaluates the rectal clinical
    goals V6000 (%) and V6200 (cc), and simulates the effect of replacing
    remaining fractions by the dose of the fraction with rectal air.

    Modelling conventions
    - Python integers are [Z]; voxel doses, volumes and weights are exact
      rationals [Q], so equalities between differently associated
      expressions are stated up to [Qeq].  The rounding of the machine
      floats is looked at in one place only: module [f64] has line 106 and
      line 137 on binary64 numbers, and shows where the exact reading and
      the rounded one part.
    - A numpy array is a shape together with its C-ordered data; the numpy
      operations the script uses are modelled with their broadcasting rules
      and with the exceptions they raise.
    - The array [delivered_dose] is updated in place ([+=]); it lives in a
      heap together with the arrays handed out by RayStation, so that
      aliasing is visible.  Arrays that are never updated are values.
    - [MessageBox.Show], the property reads on the RayStation object graph
      and the final call of [plot_prediction] are recorded in a trace;
      [exit()] ends the run with [SystemExit].
    - The script has no checks of its own on shapes and lengths: what is
      raised on inconsistent data is what numpy raises ([ValueError] for
      shapes that cannot be broadcast, [IndexError] for an index out of range
      or a non-empty boolean index of the wrong length). *)

From Stdlib Require Import ZArith QArith Lia.
From Stdlib Require Import Floats.
From stdpp Require Import base option list strings.

Local Open Scope Z_scope.

(** ** Exceptions and results *)

Inductive exn :=
  | IndexError      (* index out of range, boolean index of the wrong length *)
  | ValueError      (* operands could not be broadcast together *)
  | AttributeError. (* a fraction without an estimated dose *)

Inductive result (A : Type) :=
  | Ret (a : A)
  | SystemExit
  | Raise (e : exn).
Arguments Ret {A} a.
Arguments SystemExit {A}.
Arguments Raise {A} e.

#[global] Instance result_ret : MRet result := @Ret.
#[global] Instance result_bind : MBind result := λ A B f r,
  match r with
  | Ret a => f a
  | SystemExit => SystemExit
  | Raise e => Raise e
  end.

Definition of_option {A} (e : exn) (o : option A) : result A :=
  match o with Some a => Ret a | None => Raise e end.

(** ** numpy arrays *)

Record ndarray := NdArray { shape : list nat; data : list Q }.

#[global] Instance ndarray_inhabited : Inhabited ndarray := populate (NdArray [] []).

Module np.

(** Number of elements of an array of shape [s]. *)
Definition size (s : list nat) : nat := foldr Nat.mul 1%nat s.

Definition wf (a : ndarray) : Prop := length (data a) = size (shape a).

(** [np.zeros(s)] *)
Definition zeros (s : list nat) : ndarray := NdArray s (replicate (size s) 0%Q).

(** [d] cut into [k] consecutive blocks of [n] elements. *)
Fixpoint chunks (n k : nat) (d : list Q) : list (list Q) :=
  match k with
  | O => []
  | S k' => take n d :: chunks n k' (drop n d)
  end.

(** Data of shape [src] stretched to shape [tgt], both of the same rank:
    an axis of length 1 is repeated, any other axis has to agree. *)
Fixpoint stretch (tgt src : list nat) (d : list Q) : option (list Q) :=
  match tgt, src with
  | [], [] => Some d
  | t :: tgt', s :: src' =>
      if decide (s = t) then
        mjoin <$> mapM (stretch tgt' src') (chunks (size src') s d)
      else if decide (s = 1%nat) then
        (λ r, mjoin (replicate t r)) <$> stretch tgt' src' d
      else None
  | _, _ => None
  end.

(** A shape padded on the left with axes of length 1 up to rank [n]. *)
Definition pad (n : nat) (s : list nat) : list nat :=
  replicate (n - length s) 1%nat ++ s.

(** [np.broadcast_to(a, tgt)], on the data. *)
Definition broadcast_to (tgt : list nat) (a : ndarray) : option (list Q) :=
  if decide (length (shape a) ≤ length tgt)%nat
  then stretch tgt (pad (length tgt) (shape a)) (data a)
  else None.

Definition broadcast_dim (a b : nat) : option nat :=
  if decide (a = b) then Some a
  else if decide (a = 1%nat) then Some b
  else if decide (b = 1%nat) then Some a
  else None.

Fixpoint broadcast_dims (s1 s2 : list nat) : option (list nat) :=
  match s1, s2 with
  | [], [] => Some []
  | a :: s1', b :: s2' =>
      d ← broadcast_dim a b; ds ← broadcast_dims s1' s2'; Some (d :: ds)
  | _, _ => None
  end.

(** [np.broadcast_shapes(s1, s2)] *)
Definition broadcast_shapes (s1 s2 : list nat) : option (list nat) :=
  let n := (length s1 `max` length s2)%nat in
  broadcast_dims (pad n s1) (pad n s2).

(** A binary ufunc [f] on two arrays: [a + b], [a - b]. *)
Definition binop (f : Q → Q → Q) (a b : ndarray) : result ndarray :=
  of_option ValueError (
    s ← broadcast_shapes (shape a) (shape b);
    da ← broadcast_to s a;
    db ← broadcast_to s b;
    Some (NdArray s (zip_with f da db))).

Definition add : ndarray → ndarray → result ndarray := binop Qplus.
Definition sub : ndarray → ndarray → result ndarray := binop Qminus.

(** The new contents of [a] after [a += b]: the output keeps the shape of
    [a], so [b] has to broadcast to it. *)
Definition iadd (a b : ndarray) : result ndarray :=
  of_option ValueError (
    db ← broadcast_to (shape a) b;
    Some (NdArray (shape a) (zip_with Qplus (data a) db))).

(** [k * a] and [a * k] for a Python integer [k]. *)
Definition rmul (k : Z) (a : ndarray) : ndarray :=
  NdArray (shape a) ((λ v, inject_Z k * v)%Q <$> data a).
Definition mul (a : ndarray) (k : Z) : ndarray :=
  NdArray (shape a) ((λ v, v * inject_Z k)%Q <$> data a).

(** [a / k] for a Python integer [k]. *)
Definition div (a : ndarray) (k : Z) : ndarray :=
  NdArray (shape a) ((λ v, v / inject_Z k)%Q <$> data a).

(** [a.flatten()] *)
Definition flatten (a : ndarray) : list Q := data a.

(** [d[i]] for one integer index: negative indices count from the end. *)
Definition item (d : list Q) (i : Z) : result Q :=
  let n := Z.of_nat (length d) in
  if decide (- n ≤ i < n)
  then of_option IndexError (d !! Z.to_nat (i `mod` n))
  else Raise IndexError.

(** [d[idx]] for an integer index array. *)
Definition take (d : list Q) (idx : list Z) : result (list Q) :=
  mapM (item d) idx.

(** [d >= t] *)
Definition ge (d : list Q) (t : Q) : list bool := (λ v, Qle_bool t v) <$> d.

(** [w[mask]] for a boolean index array.  The length of the index is
    checked against the length of [w] only when the index is not empty: an
    empty boolean index selects nothing from an array of any length. *)
Definition select (w : list Q) (mask : list bool) : result (list Q) :=
  if decide (length mask = 0%nat ∨ length mask = length w)
  then Ret ((filter (λ p, p.2 = true) (zip w mask)).*1)
  else Raise IndexError.

(** [np.sum(d)] of a float array *)
Definition sum (d : list Q) : Q := foldr Qplus 0%Q d.

(** [np.sum(mask)] of a boolean array: the number of [True] entries. *)
Definition count (mask : list bool) : Z :=
  Z.of_nat (length (filter (λ b, b = true) mask)).

End np.


(** ** Control: loops over a range *)

(** [range(a, b)] *)
Definition range (a b : Z) : list Z := seqZ a (b - a).

(** A loop [for i in l] whose body updates local variables [s] and may raise. *)
Fixpoint for_fold {S A : Type} (l : list A) (body : A → S → result S) (s : S)
  : result S :=
  match l with
  | [] => Ret s
  | i :: l' => s' ← body i s; for_fold l' body s'
  end.

(** ** The heap, the trace and the monad of the script *)

(** Array objects are named by their position in the heap. *)
Abbreviation loc := nat.

Inductive message :=
  | InsufficientFractions (delivered_fractions : Z)
      (* "Insufficient Fractions - Intervention Required" *)
  | RectalDoseTooHigh (current_v6000 current_v6200 : Q).
      (* "Rectal Dose Too High - Intervention Required" *)

Inductive event :=
  | MessageBox_Show (m : message)
  | GetDoseGridRoi (RoiName : string)
  | Read_InDoseGrid (i : Z)
  | Read_DoseData (i : Z)
  | plot_prediction (CG_v6000 CG_v6200 : list Q)
                    (delivered_fractions total_fractions : Z).

(** [trace] lists the events of a run, the most recent one first. *)
Record state := State { heap : list ndarray; trace : list event }.

Definition M (A : Type) : Type := state → result A * state.

#[global] Instance M_ret : MRet M := λ A a st, (Ret a, st).
#[global] Instance M_bind : MBind M := λ A B f m st,
  match m st with
  | (Ret a, st') => f a st'
  | (SystemExit, st') => (SystemExit, st')
  | (Raise e, st') => (Raise e, st')
  end.

Definition lift {A} (r : result A) : M A := λ st, (r, st).
Definition emit (e : event) : M unit :=
  λ st, (Ret (), State (heap st) (e :: trace st)).
(** [exit()] *)
Definition exit {A} : M A := λ st, (SystemExit, st).

(** A new array object. *)
Definition alloc (a : ndarray) : M loc :=
  λ st, (Ret (length (heap st)), State (heap st ++ [a]) (trace st)).
Definition load (l : loc) : M ndarray :=
  λ st, (of_option AttributeError (heap st !! l), st).
Definition store (l : loc) (a : ndarray) : M unit :=
  λ st, (Ret (), State (<[l:=a]> (heap st)) (trace st)).

(** [a += b] on array objects. *)
Definition iadd (a b : loc) : M unit :=
  va ← load a; vb ← load b; v ← lift (np.iadd va vb); store a v.

(** A loop [for i in l] whose body works on the heap. *)
Fixpoint for_ {A : Type} (l : list A) (body : A → M unit) : M unit :=
  match l with
  | [] => mret ()
  | i :: l' => body i;; for_ l' body
  end.

(** ** The RayStation objects the script reads *)

Record xyz (A : Type) := XYZ { x_ : A; y_ : A; z_ : A }.
Arguments XYZ {A}.
Arguments x_ {A}.
Arguments y_ {A}.
Arguments z_ {A}.

(** One entry of [case.TreatmentDelivery.TreatmentCourse.TreatmentFractions];
    [NrVoxels], [VoxelSize] and [DoseData] belong to its
    [EstimatedFractionDoseOnTotalDoseExamination]. *)
Record Fraction := {
  Status : string;
  NrVoxels : xyz nat;
  VoxelSize : xyz Q;
  DoseData : loc;
}.

Record RayStation := {
  (** [len(plan.TreatmentCourse.TreatmentFractions)] *)
  plan_TreatmentFractions : nat;
  (** [case.TreatmentDelivery.TreatmentCourse.TreatmentFractions] *)
  TreatmentFractions : list Fraction;
  (** [RoiVolumeDistribution] of the dose grid ROI "Rectum" *)
  VoxelIndices : list Z;
  RelativeVolumes : list Q;
}.

(** [TreatmentFractions[i]] *)
Definition TreatmentFractions_at (rs : RayStation) (i : Z) : result Fraction :=
  if decide (0 ≤ i)
  then of_option IndexError (TreatmentFractions rs !! Z.to_nat i)
  else Raise IndexError.

(** [TreatmentFractions[i].EstimatedFractionDoseOnTotalDoseExamination
      .DoseValues.DoseData] *)
Definition get_DoseData (rs : RayStation) (i : Z) : M loc :=
  f ← lift (TreatmentFractions_at rs i);
  emit (Read_DoseData i);;
  mret (DoseData f).

(** [TreatmentFractions[i].EstimatedFractionDoseOnTotalDoseExamination
      .InDoseGrid] *)
Definition get_InDoseGrid (rs : RayStation) (i : Z) : M (xyz nat * xyz Q) :=
  f ← lift (TreatmentFractions_at rs i);
  emit (Read_InDoseGrid i);;
  mret (NrVoxels f, VoxelSize f).

(** ** The script: class [Model] *)

(** [Model.get_fraction_info], without the patient name: the number of planned
    fractions and the number of fractions marked as delivered, minus one for
    the fraction with air that RayStation already marks as delivered. *)
Definition get_fraction_info (rs : RayStation) : Z * Z :=
  let total_fractions := Z.of_nat (plan_TreatmentFractions rs) in
  let delivered_fractions :=
    Z.of_nat (length (filter (λ f, Status f = "Delivered") (TreatmentFractions rs))) in
  (total_fractions, delivered_fractions - 1).

(** Lines 96-105: the cumulative delivered dose and the mean fraction dose.
    Returns the array object [delivered_dose] and the array [mean_dose]. *)
Definition accumulate (rs : RayStation) (grid_shape : xyz nat)
    (delivered_fractions : Z) : M (loc * ndarray) :=
  delivered_dose ← alloc (np.zeros [z_ grid_shape; y_ grid_shape; x_ grid_shape]);
  for_ (range 0 delivered_fractions) (λ i,
    d ← get_DoseData rs i;
    iadd delivered_dose d);;
  summed ← load delivered_dose;
  let mean_dose := np.div summed delivered_fractions in
  mret (delivered_dose, mean_dose).

(** Lines 108-113 and again lines 138-141: the two dose metrics of the ROI on
    a dose grid, [(V6000 in %, V6200 in cc)]. *)
Definition roi_metrics (dose : ndarray) (voxel_indices : list Z)
    (relative_volumes : list Q) (voxel_volume_cc : Q)
    (threshold_v6000 threshold_v6200 : Q) : result (Q * Q) :=
  roi_doses ← np.take (np.flatten dose) voxel_indices;
  selected ← np.select relative_volumes (np.ge roi_doses threshold_v6000);
  let v6000 := (np.sum selected * 100)%Q in
  let v6200 :=
    (inject_Z (np.count (np.ge roi_doses threshold_v6200)) * voxel_volume_cc)%Q in
  Ret (v6000, v6200).

(** Line 137: the course dose if [x] of the fractions have the dose of the
    fraction with air and the other [total_fractions - x] the mean dose. *)
Definition future_total_dose (total_fractions : Z) (mean_dose air_dose : ndarray)
    (x : Z) : result ndarray :=
  let y := total_fractions - x in
  np.add (np.rmul y mean_dose) (np.rmul x air_dose).

(** Lines 132-144: the simulation loop, which appends one entry per [x] to
    [CG_v6000] and [CG_v6200]. *)
Definition simulate (total_fractions delivered_fractions : Z)
    (mean_dose air_dose : ndarray) (voxel_indices : list Z)
    (relative_volumes : list Q) (voxel_volume_cc : Q)
    (threshold_v6000 threshold_v6200 : Q)
    (CG : list Q * list Q) : result (list Q * list Q) :=
  let remaining_fractions := total_fractions - delivered_fractions in
  for_fold (range 1 (remaining_fractions + 1)) (λ x '(CG_v6000, CG_v6200),
    dose ← future_total_dose total_fractions mean_dose air_dose x;
    '(v6000, v6200) ← roi_metrics dose voxel_indices relative_volumes
                        voxel_volume_cc threshold_v6000 threshold_v6200;
    Ret (CG_v6000 ++ [v6000], CG_v6200 ++ [v6200])) CG.

Definition threshold_v6000 : Q := 6000.  (* Threshold dose for V6000 (cGy) *)
Definition threshold_v6200 : Q := 6200.  (* Threshold dose for V6200 (cGy) *)
Definition volume_limit_v6200 : Q := 2.  (* Clinical goal: max 2 cc at 6200 cGy *)
Definition dose_limit_v6000 : Q := 3.    (* Clinical goal: max 3% volume at 6000 cGy *)

(** The local variables of [evaluate_rectal_air] after line 113. *)
Record locals := Locals {
  voxel_indices : list Z;
  relative_volumes : list Q;
  voxel_volume_cc : Q;
  mean_dose : ndarray;
  current_v6000 : Q;
  current_v6200 : Q;
}.

(** Lines 68-113: the ROI, the grid geometry, the accumulated dose and the
    current dose metrics. *)
Definition current_goals (rs : RayStation)
    (total_fractions delivered_fractions : Z) : M locals :=
  let roi_name := "Rectum" in
  emit (GetDoseGridRoi roi_name);;
  let voxel_indices := VoxelIndices rs in
  let relative_volumes := RelativeVolumes rs in
  '(grid_shape, VoxelSize) ← get_InDoseGrid rs 0;
  let voxel_volume_cc := (x_ VoxelSize * y_ VoxelSize * z_ VoxelSize)%Q in
  '(delivered_dose, mean_dose) ← accumulate rs grid_shape delivered_fractions;
  let accumulated_dose := np.mul mean_dose total_fractions in
  '(current_v6000, current_v6200) ←
    lift (roi_metrics accumulated_dose voxel_indices relative_volumes
            voxel_volume_cc threshold_v6000 threshold_v6200);
  mret (Locals voxel_indices relative_volumes voxel_volume_cc mean_dose
          current_v6000 current_v6200).

(** Line 116: is one of the clinical goals reached? *)
Definition goal_exceeded (current_v6000 current_v6200 : Q) : bool :=
  Qle_bool dose_limit_v6000 current_v6000
  || Qle_bool volume_limit_v6200 current_v6200.

(** Lines 130-146: the simulation with the array [air] of the fraction with
    air, and the plots. *)
Definition simulate_and_plot (total_fractions delivered_fractions : Z)
    (L : locals) (air : loc) : M unit :=
  air_dose ← load air;
  '(CG_v6000, CG_v6200) ←
    lift (simulate total_fractions delivered_fractions (mean_dose L) air_dose
            (voxel_indices L) (relative_volumes L) (voxel_volume_cc L)
            threshold_v6000 threshold_v6200 ([], []));
  emit (plot_prediction CG_v6000 CG_v6200 delivered_fractions total_fractions).

(** Lines 128-146: the dose of the fraction with air, the simulation and the
    plots. *)
Definition predict (rs : RayStation) (total_fractions delivered_fractions : Z)
    (L : locals) : M unit :=
  air ← get_DoseData rs delivered_fractions;
  simulate_and_plot total_fractions delivered_fractions L air.

(** [Model.evaluate_rectal_air] *)
Definition evaluate_rectal_air (rs : RayStation)
    (total_fractions delivered_fractions : Z) : M unit :=
  if decide (delivered_fractions < 5) then
    emit (MessageBox_Show (InsufficientFractions delivered_fractions));;
    exit
  else
    L ← current_goals rs total_fractions delivered_fractions;
    if goal_exceeded (current_v6000 L) (current_v6200 L) then
      emit (MessageBox_Show (RectalDoseTooHigh (current_v6000 L) (current_v6200 L)));;
      exit
    else
      predict rs total_fractions delivered_fractions L.

(** [View.initialize_data] followed by a click on "Analyse": the counts of
    [get_fraction_info] are what [Controller.run_analysis] passes on. *)
Definition run_analysis (rs : RayStation) : M unit :=
  let '(total, delivered) := get_fraction_info rs in
  evaluate_rectal_air rs total delivered.

(** *** A worked course *)

Definition const_grid (v : Q) : ndarray := NdArray [1; 1; 2]%nat [v; v].

Definition fraction_at (l : loc) : Fraction :=
  {| Status := "Delivered"; NrVoxels := XYZ 2%nat 1%nat 1%nat;
     VoxelSize := XYZ (1#2)%Q 1%Q 1%Q; DoseData := l |}.

Definition demo_rs : RayStation :=
  {| plan_TreatmentFractions := 10;
     TreatmentFractions := fraction_at <$> seq 0 10;
     VoxelIndices := [0; 1];
     RelativeVolumes := [1#2; 1#2]%Q |}.

Definition demo_state : state :=
  State (replicate 5 (const_grid 200) ++ replicate 5 (const_grid 300)) [].

(** The same course with 700 cGy per fraction and voxel. *)
Definition hot_state : state := State (replicate 10 (const_grid 700)) [].

(** A course whose five fractions are all delivered. *)
Definition short_rs : RayStation :=
  {| plan_TreatmentFractions := 5;
     TreatmentFractions := fraction_at <$> seq 0 5;
     VoxelIndices := [0; 1];
     RelativeVolumes := [1 # 2; 1 # 2]%Q |}.


Definition clash_state : state :=
  State (replicate 4 (const_grid 200) ++ [NdArray [3]%nat [1; 2; 3]%Q]
         ++ replicate 5 (const_grid 300)) [].


(** The course of ten fractions with two voxel indices and one weight. *)
Definition one_weight_rs : RayStation :=
  {| plan_TreatmentFractions := 10;
     TreatmentFractions := fraction_at <$> seq 0 10;
     VoxelIndices := [0; 1];
     RelativeVolumes := [1%Q] |}.

(** A plan of five fractions with a delivery course of seven entries, all
    marked as delivered. *)
Definition long_rs : RayStation :=
  {| plan_TreatmentFractions := 5;
     TreatmentFractions := fraction_at <$> seq 0 7;
     VoxelIndices := [0; 1];
     RelativeVolumes := [1 # 2; 1 # 2]%Q |}.

Definition long_state : state := State (replicate 7 (const_grid 200)) [].

Definition example_dose : ndarray :=
  NdArray [10]%nat (replicate 3 7000 ++ replicate 7 5000)%Q.

(** ** Reference formulations used in the statements *)

(** The decision a run stands for: which dialog ended it, or the plots. *)
Inductive Verdict := Proceed | InterveneInsufficientData | InterveneGoalExceeded.

Definition decision (r : result unit) (st : state) : option Verdict :=
  match r, trace st with
  | SystemExit, MessageBox_Show (InsufficientFractions _) :: _ =>
      Some InterveneInsufficientData
  | SystemExit, MessageBox_Show (RectalDoseTooHigh _ _) :: _ =>
      Some InterveneGoalExceeded
  | Ret _, plot_prediction _ _ _ _ :: _ => Some Proceed
  | _, _ => None
  end.

#[global] Instance Q_inhabited : Inhabited Q := populate 0%Q.

(** The number of fractions RayStation marks as delivered. *)
Definition reported_delivered_count (rs : RayStation) : Z :=
  Z.of_nat (length (filter (λ f, Status f = "Delivered") (TreatmentFractions rs))).

(** An index a flat array of [n] elements accepts. *)
Definition valid_index (n : nat) (j : Z) : Prop := - Z.of_nat n ≤ j < Z.of_nat n.

(** [flatten(dose)[j]] *)
Definition dose_at (dose : ndarray) (j : Z) : Q :=
  data dose !!! Z.to_nat (j `mod` Z.of_nat (length (data dose))).

(** The positions [i] of the ROI lists whose voxel has a dose of at least
    [threshold]. *)
Definition qualifying (dose : ndarray) (roi_indices : list Z) (threshold : Q)
  : list nat :=
  filter (λ i, Qle_bool threshold (dose_at dose (roi_indices !!! i)) = true)
         (seq 0 (length roi_indices)).

(** 100 x the sum of [roi_weights[i]] over the qualifying [i]. *)
Definition spec_v_dose_percent (dose : ndarray) (roi_indices : list Z)
    (roi_weights : list Q) (threshold : Q) : Q :=
  (100 * np.sum ((λ i, roi_weights !!! i) <$> qualifying dose roi_indices threshold))%Q.

(** [voxel_volume_cc] x the number of qualifying [i]. *)
Definition spec_v_volume_cc (dose : ndarray) (roi_indices : list Z)
    (voxel_volume_cc : Q) (threshold : Q) : Q :=
  (voxel_volume_cc
   * inject_Z (Z.of_nat (length (qualifying dose roi_indices threshold))))%Q.

(** The sum of the voxel [j] over the grids [gs]. *)
Definition elementwise_sum (gs : list ndarray) (j : nat) : Q :=
  np.sum ((λ g, data g !!! j) <$> gs).

(** The accumulation loop of lines 100-102 read as a function of the arrays
    [h] of RayStation and of the accumulator: the outcome, the accumulator
    and the events of the loop, the most recent first. *)
Fixpoint sum_fractions (rs : RayStation) (h : list ndarray) (idx : list Z)
    (acc : ndarray) : result unit * ndarray * list event :=
  match idx with
  | [] => (Ret (), acc, [])
  | i :: idx' =>
      match TreatmentFractions_at rs i with
      | Ret f =>
          match h !! DoseData f with
          | Some g =>
              match np.iadd acc g with
              | Ret acc' =>
                  let '(r, acc'', evs) := sum_fractions rs h idx' acc' in
                  (r, acc'', evs ++ [Read_DoseData i])
              | SystemExit => (SystemExit, acc, [Read_DoseData i])
              | Raise e => (Raise e, acc, [Read_DoseData i])
              end
          | None => (Raise AttributeError, acc, [Read_DoseData i])
          end
      | SystemExit => (SystemExit, acc, [])
      | Raise e => (Raise e, acc, [])
      end
  end.

(** The arrays of the fractions are objects of the heap [h]. *)
Definition provider_ok (rs : RayStation) (h : list ndarray) : Prop :=
  ∀ f, f ∈ TreatmentFractions rs → (DoseData f < length h)%nat.


(** ** Lines 106 and 137 in binary64

    The dose arrays are arrays of [float64].  Here the data of arrays of one
    shape are lists of binary64 numbers, and every product and every sum is
    rounded to the nearest binary64 number, as numpy does. *)

Module f64.

(** A Python integer [k] with [|k| < 2^63] as a [float64] operand. *)
Definition of_int (k : Z) : float :=
  if decide (0 ≤ k) then of_uint63 (Uint63.of_Z k)
  else (- of_uint63 (Uint63.of_Z (- k)))%float.

(** [k * d] *)
Definition rmul (k : Z) (d : list float) : list float :=
  (λ v, of_int k * v)%float <$> d.

(** [d * k] *)
Definition mul (d : list float) (k : Z) : list float :=
  (λ v, v * of_int k)%float <$> d.

(** [d + d'] and [d - d'] for arrays of one shape *)
Definition add (d d' : list float) : list float := zip_with PrimFloat.add d d'.
Definition sub (d d' : list float) : list float := zip_with PrimFloat.sub d d'.

(** Line 106: [accumulated_dose = mean_dose * total_fractions] *)
Definition accumulated_dose (mean_dose : list float) (total_fractions : Z)
    : list float :=
  mul mean_dose total_fractions.

(** Line 137: [future_total_dose = y * mean_dose + x * air_dose] with
    [y = total_fractions - x] *)
Definition future_total_dose (total_fractions : Z)
    (mean_dose air_dose : list float) (x : Z) : list float :=
  let y := total_fractions - x in
  add (rmul y mean_dose) (rmul x air_dose).

(** Are two arrays of one shape equal, entry by entry, as numbers? *)
Definition array_equal (d d' : list float) : bool :=
  bool_decide (length d = length d')
  && forallb (λ p, PrimFloat.eqb p.1 p.2) (zip d d').

End f64.

(** A voxel with a mean fraction dose of 336.3 cGy and 579.6 cGy in the
    fraction with air, in a course of 28 fractions. *)
#[local] Set Warnings "-inexact-float".
Definition example_mean_dose : list float := [336.3%float].
Definition example_air_dose : list float := [579.6%float].
#[local] Set Warnings "inexact-float".

(** ** Further notions used in the statements *)

(** A boolean index that selects at least what another one selects. *)
Abbreviation mask_le := (Forall2 (λ b b' : bool, b = true → b' = true)).

(** An event that reads no fraction other than those at the indices
    [0 .. n], and the grid geometry of no fraction other than the first. *)
Definition read_within (n : Z) (e : event) : Prop :=
  match e with
  | Read_DoseData i => 0 ≤ i ≤ n
  | Read_InDoseGrid i => i = 0
  | _ => True
  end.

(** The events that read RayStation, as opposed to the dialogs and the
    plots, which show something to the user. *)
Definition is_read (e : event) : Prop :=
  match e with
  | GetDoseGridRoi _ | Read_InDoseGrid _ | Read_DoseData _ => True
  | MessageBox_Show _ | plot_prediction _ _ _ _ => False
  end.

(** ** [Model.plot_prediction] *)

(** What one of the two figures shows: the ticks of the lower axis
    ([set_xticks]), the plotted line, the height of the dashed line of the
    clinical goal ([axhline]), and the ticks and tick labels of the upper
    axis ([twiny], [set_xticks], [set_xticklabels]). *)
Record figure := Figure {
  xticks : list Z;
  line : list (Z * Q);
  axhline : Q;
  top_xticks : list Z;
  top_xticklabels : list Z;
}.

(** What [plot_prediction] shows: its dialog "Physician Review Required"
    and the figures ([plt.show]). *)
Inductive gui_event :=
  | PhysicianReviewRequired
  | plt_show (fig : figure).

(** [ax.plot(x, y)]: matplotlib wants as many [x] as [y]. *)
Definition ax_plot (x : list Z) (y : list Q) : result (list (Z * Q)) :=
  if decide (length x = length y) then Ret (zip x y) else Raise ValueError.

(** [ax.set_xticklabels(labels)] after [ax.set_xticks(ticks)]: matplotlib
    wants as many labels as ticks. *)
Definition set_xticklabels (ticks labels : list Z) : result (list Z) :=
  if decide (length labels = length ticks) then Ret labels else Raise ValueError.

(** Lines 163-180 and again lines 183-200: one figure. *)
Definition draw_figure (fraction_numbers fraction_numbers_air : list Z)
    (CG : list Q) (goal : Q) : result figure :=
  points ← ax_plot fraction_numbers CG;
  labels ← set_xticklabels fraction_numbers fraction_numbers_air;
  Ret (Figure fraction_numbers points goal fraction_numbers labels).

(** [Model.plot_prediction]: what is shown, the most recent first, and how
    the call ends. *)
Definition Model_plot_prediction (CG_v6000 CG_v6200 : list Q)
    (delivered_fractions total_fractions : Z) : list gui_event * result unit :=
  let fraction_numbers := range (delivered_fractions + 1) (total_fractions + 1) in
  let fraction_numbers_air :=
    range 1 (total_fractions - delivered_fractions + 1) in
  match draw_figure fraction_numbers fraction_numbers_air CG_v6000 3 with
  | Ret fig1 =>
      match draw_figure fraction_numbers fraction_numbers_air CG_v6200 2 with
      | Ret fig2 =>
          ([plt_show fig2; plt_show fig1; PhysicianReviewRequired], Ret ())
      | SystemExit => ([plt_show fig1; PhysicianReviewRequired], SystemExit)
      | Raise e => ([plt_show fig1; PhysicianReviewRequired], Raise e)
      end
  | SystemExit => ([PhysicianReviewRequired], SystemExit)
  | Raise e => ([PhysicianReviewRequired], Raise e)
  end.
(** * Properties *)

(** ** numpy: broadcasting to the same shape changes nothing *)

Lemma chunks_join n k d :
  length d = (k * n)%nat → mjoin (np.chunks n k d) = d.
Proof.
  revert d. induction k as [|k IH]; intros d Hd; simpl in *.
  - by destruct d.
  - rewrite IH; [apply take_drop|]. rewrite length_drop. lia.
Qed.

Lemma chunks_length n k d :
  length d = (k * n)%nat → Forall (λ c, length c = n) (np.chunks n k d).
Proof.
  revert d. induction k as [|k IH]; intros d Hd; simpl in *; constructor.
  - rewrite length_take. lia.
  - apply IH. rewrite length_drop. lia.
Qed.

Lemma stretch_id s d : length d = np.size s → np.stretch s s d = Some d.
Proof.
  revert d. induction s as [|n s IH]; intros d Hd; simpl in *; [done|].
  rewrite decide_True by done.
  assert (mapM (np.stretch s s) (np.chunks (np.size s) n d)
          = Some (np.chunks (np.size s) n d)) as ->.
  { apply mapM_Some_2, Forall2_same_length_lookup_2; [done|].
    intros i c c' Hc Hc'. simplify_eq.
    apply IH. eapply (Forall_lookup_1 _ _ _ _ (chunks_length _ _ _ Hd) Hc). }
  simpl. by rewrite chunks_join.
Qed.

Lemma pad_id s : np.pad (length s) s = s.
Proof. unfold np.pad. by rewrite Nat.sub_diag. Qed.

Lemma broadcast_to_id a : np.wf a → np.broadcast_to (shape a) a = Some (data a).
Proof.
  intros Hwf. unfold np.broadcast_to. rewrite decide_True by done.
  rewrite pad_id. by apply stretch_id.
Qed.

Lemma broadcast_dims_id s : np.broadcast_dims s s = Some s.
Proof.
  induction s as [|n s IH]; simpl; [done|].
  unfold np.broadcast_dim. rewrite decide_True by done. simpl. by rewrite IH.
Qed.

Lemma broadcast_shapes_id s : np.broadcast_shapes s s = Some s.
Proof.
  unfold np.broadcast_shapes. rewrite Nat.max_id, pad_id.
  apply broadcast_dims_id.
Qed.

Lemma binop_same_shape f a b :
  shape a = shape b → np.wf a → np.wf b →
  np.binop f a b = Ret (NdArray (shape a) (zip_with f (data a) (data b))).
Proof.
  intros Hs Ha Hb. unfold np.binop. rewrite <- Hs, broadcast_shapes_id. simpl.
  rewrite (broadcast_to_id a Ha). simpl.
  rewrite Hs, (broadcast_to_id b Hb). by simpl.
Qed.

Lemma iadd_same_shape a b :
  shape b = shape a → np.wf b →
  np.iadd a b = Ret (NdArray (shape a) (zip_with Qplus (data a) (data b))).
Proof.
  intros Hs Hb. unfold np.iadd. rewrite <- Hs, (broadcast_to_id b Hb). by simpl.
Qed.

(** ** The ROI metrics *)

Lemma item_valid d j :
  valid_index (length d) j →
  np.item d j = Ret (d !!! Z.to_nat (j `mod` Z.of_nat (length d))).
Proof.
  intros Hj. unfold np.item. rewrite decide_True by done.
  assert (Z.to_nat (j `mod` Z.of_nat (length d)) < length d)%nat as Hlt.
  { unfold valid_index in Hj.
    pose proof (Z.mod_pos_bound j (Z.of_nat (length d))). lia. }
  destruct (lookup_lt_is_Some_2 _ _ Hlt) as [v Hv].
  rewrite Hv. simpl. by rewrite (list_lookup_total_correct _ _ _ Hv).
Qed.

Lemma item_cases d j : (∃ v, np.item d j = Ret v) ∨ np.item d j = Raise IndexError.
Proof.
  unfold np.item. case_decide; [|by right].
  destruct (d !! _); simpl; eauto.
Qed.

Lemma take_valid d idx :
  Forall (valid_index (length d)) idx →
  np.take d idx
  = Ret ((λ j, d !!! Z.to_nat (j `mod` Z.of_nat (length d))) <$> idx).
Proof.
  unfold np.take. induction 1 as [|j idx Hj _ IH]; simpl; [done|].
  rewrite (item_valid _ _ Hj). simpl. rewrite IH. done.
Qed.

Lemma take_cases d idx :
  (∃ l, np.take d idx = Ret l ∧ length l = length idx)
  ∨ np.take d idx = Raise IndexError.
Proof.
  unfold np.take. induction idx as [|j idx IH]; simpl.
  - left. by exists [].
  - destruct (item_cases d j) as [[v ->]| ->]; simpl; [|by right].
    destruct IH as [(l & -> & Hl)| ->]; simpl; [|by right].
    left. exists (v :: l). simpl. by rewrite Hl.
Qed.

Lemma filter_fmap {A B} (f : A → B) (P : B → Prop) `{∀ y, Decision (P y)}
    (l : list A) :
  filter P (f <$> l) = f <$> filter (λ a, P (f a)) l.
Proof.
  induction l as [|a l IH]; [done|].
  rewrite fmap_cons, !filter_cons, IH. by case_decide.
Qed.

Lemma select_positions (w : list Q) (mask : list bool) :
  length mask = length w →
  (filter (λ p, p.2 = true) (zip w mask)).*1
  = (λ i, w !!! i) <$> filter (λ i, mask !!! i = true) (seq 0 (length w)).
Proof.
  revert mask. induction w as [|v w IH]; intros [|b mask] Hlen;
    simplify_eq/=; [done|].
  specialize (IH mask Hlen).
  rewrite <- fmap_S_seq.
  destruct b.
  - rewrite (filter_cons_True _ (v, true)), (filter_cons_True _ 0%nat) by done.
    rewrite filter_fmap, !fmap_cons, <- list_fmap_compose. simpl.
    by rewrite IH.
  - rewrite (filter_cons_False _ (v, false)), (filter_cons_False _ 0%nat) by done.
    rewrite filter_fmap, <- list_fmap_compose. simpl.
    by rewrite IH.
Qed.

Lemma count_positions (mask : list bool) :
  length (filter (λ b, b = true) mask)
  = length (filter (λ i, mask !!! i = true) (seq 0 (length mask))).
Proof.
  induction mask as [|b mask IH]; simpl; [done|].
  rewrite <- fmap_S_seq.
  destruct b.
  - rewrite (filter_cons_True _ true), (filter_cons_True _ 0%nat) by done.
    rewrite filter_fmap. simpl. by rewrite length_fmap, IH.
  - rewrite (filter_cons_False _ false), (filter_cons_False _ 0%nat) by done.
    rewrite filter_fmap. simpl. by rewrite length_fmap, IH.
Qed.

Lemma filter_ext_in {A} (P1 P2 : A → Prop)
    `{∀ a, Decision (P1 a), ∀ a, Decision (P2 a)} (l : list A) :
  (∀ a, a ∈ l → P1 a ↔ P2 a) → filter P1 l = filter P2 l.
Proof.
  induction l as [|a l IH]; intros HP; [done|].
  rewrite !filter_cons, IH by (intros; apply HP; by right).
  destruct (decide (P1 a)) as [H1|H1], (decide (P2 a)) as [H2|H2]; try done;
    exfalso; apply (HP a (list_elem_of_here _ _)) in H1 || apply (HP a (list_elem_of_here _ _)) in H2; done.
Qed.

Lemma ge_positions dose roi_indices threshold :
  Forall (valid_index (length (data dose))) roi_indices →
  filter (λ i, np.ge ((λ j, data dose !!! Z.to_nat (j `mod` Z.of_nat (length (data dose))))
                        <$> roi_indices) threshold !!! i = true)
         (seq 0 (length roi_indices))
  = qualifying dose roi_indices threshold.
Proof.
  intros Hvalid. unfold qualifying. apply filter_ext_in.
  intros i [_ Hi]%elem_of_seq. simpl in Hi.
  unfold np.ge. rewrite <- list_fmap_compose.
  rewrite (list_lookup_total_fmap _ roi_indices i) by done. done.
Qed.

Lemma ge_length d t : length (np.ge d t) = length d.
Proof. apply length_fmap. Qed.

(** With every index within the flattened grid and as many weights as
    indices, the metrics are returned. *)
Lemma roi_metrics_defined dose roi_indices roi_weights voxel_volume_cc t1 t2 :
  Forall (valid_index (length (data dose))) roi_indices →
  length roi_indices = length roi_weights →
  ∃ m, roi_metrics dose roi_indices roi_weights voxel_volume_cc t1 t2 = Ret m.
Proof.
  intros Hvalid Hlen. unfold roi_metrics, np.flatten.
  rewrite (take_valid _ _ Hvalid). simpl.
  unfold np.select.
  rewrite decide_True by (right; by rewrite ge_length, length_fmap).
  simpl. by eexists.
Qed.

(** C2. With every index within the flattened grid and as many weights as
    indices, the metrics are returned and are, up to the order of the factors,
    100 x the sum of the weights of the voxels at or above the first
    threshold, and the voxel volume x the number of voxels at or above the
    second threshold. *)
Theorem roi_metrics_formula dose roi_indices roi_weights voxel_volume_cc
    dose_threshold_pct dose_threshold_vol :
  Forall (valid_index (length (data dose))) roi_indices →
  length roi_indices = length roi_weights →
  ∃ v_dose_percent v_volume_cc,
    roi_metrics dose roi_indices roi_weights voxel_volume_cc
                dose_threshold_pct dose_threshold_vol
    = Ret (v_dose_percent, v_volume_cc)
    ∧ (v_dose_percent
       == spec_v_dose_percent dose roi_indices roi_weights dose_threshold_pct)%Q
    ∧ (v_volume_cc
       == spec_v_volume_cc dose roi_indices voxel_volume_cc dose_threshold_vol)%Q.
Proof.
  intros Hvalid Hlen. unfold roi_metrics, np.flatten.
  rewrite (take_valid _ _ Hvalid). simpl.
  unfold np.select.
  rewrite decide_True by (right; by rewrite ge_length, length_fmap).
  simpl. eexists _, _. split; [reflexivity|]. split.
  - rewrite select_positions by (by rewrite ge_length, length_fmap).
    rewrite <- Hlen, (ge_positions _ _ _ Hvalid).
    unfold spec_v_dose_percent. apply Qmult_comm.
  - unfold np.count, spec_v_volume_cc. rewrite count_positions.
    rewrite ge_length, length_fmap, (ge_positions _ _ _ Hvalid).
    apply Qmult_comm.
Qed.

Lemma roi_metrics_formula_witness :
  ∃ v_dose_percent v_volume_cc,
    roi_metrics example_dose (seqZ 0 10) (replicate 10 (1 # 10)%Q) (1 # 2)%Q
                6000%Q 6200%Q
    = Ret (v_dose_percent, v_volume_cc)
    ∧ (v_dose_percent
       == spec_v_dose_percent example_dose (seqZ 0 10) (replicate 10 (1 # 10)%Q)
            6000%Q)%Q
    ∧ (v_volume_cc
       == spec_v_volume_cc example_dose (seqZ 0 10) (1 # 2)%Q 6200%Q)%Q.
Proof.
  apply roi_metrics_formula.
  - repeat constructor; vm_compute; congruence.
  - reflexivity.
Defined.

(** The worked example of the metric formula: 30 % and 1.5 cc. *)
Example roi_metrics_example :
  ∃ v_dose_percent v_volume_cc,
    roi_metrics example_dose (seqZ 0 10) (replicate 10 (1 # 10)%Q) (1 # 2)%Q
                6000%Q 6200%Q
    = Ret (v_dose_percent, v_volume_cc)
    ∧ (v_dose_percent == 30)%Q ∧ (v_volume_cc == 3 # 2)%Q.
Proof. eexists _, _. split; [vm_compute; reflexivity|]. by split. Qed.

(** With no voxel index both metrics are zero, for every grid and whatever
    the weights. *)
Lemma roi_metrics_empty dose roi_weights voxel_volume_cc t1 t2 :
  roi_metrics dose [] roi_weights voxel_volume_cc t1 t2
  = Ret ((0 * 100)%Q, (inject_Z 0 * voxel_volume_cc)%Q).
Proof. by destruct roi_weights. Qed.

(** C6, as stated, fails: an empty ROI is not rejected, the metrics of a
    grid with doses above both thresholds are returned and are zero. *)
Lemma empty_roi_is_accepted :
  roi_metrics (const_grid 7000) [] [] (1 # 2)%Q 6000%Q 6200%Q
  = Ret (0%Q, (0 # 2)%Q).
Proof. reflexivity. Qed.

(** C6, amended. With [roi_indices] empty no error is raised: whatever the
    dose grid, the weights, the voxel volume and the thresholds, both metrics
    are returned and are zero. *)
Theorem roi_metrics_empty_roi dose roi_weights voxel_volume_cc t1 t2 :
  ∃ v_dose_percent v_volume_cc,
    roi_metrics dose [] roi_weights voxel_volume_cc t1 t2
    = Ret (v_dose_percent, v_volume_cc)
    ∧ (v_dose_percent == 0)%Q ∧ (v_volume_cc == 0)%Q.
Proof.
  eexists _, _. split; [apply roi_metrics_empty|].
  split; [reflexivity|]. apply Qmult_0_l.
Qed.


(** ** The forward projection *)

Lemma rmul_wf k a : np.wf a → np.wf (np.rmul k a).
Proof. unfold np.wf. simpl. by rewrite length_fmap. Qed.

Lemma mul_wf a k : np.wf a → np.wf (np.mul a k).
Proof. unfold np.wf. simpl. by rewrite length_fmap. Qed.

Lemma future_total_dose_same_shape total_fractions mean_dose air_dose x :
  shape mean_dose = shape air_dose → np.wf mean_dose → np.wf air_dose →
  future_total_dose total_fractions mean_dose air_dose x
  = Ret (NdArray (shape mean_dose)
           (zip_with (λ m a, inject_Z (total_fractions - x) * m + inject_Z x * a)%Q
                     (data mean_dose) (data air_dose))).
Proof.
  intros Hs Hm Ha. unfold future_total_dose, np.add.
  rewrite binop_same_shape by (done || by apply rmul_wf).
  simpl. by rewrite zip_with_fmap_l, zip_with_fmap_r.
Qed.

Lemma affine_pointwise (T x : Z) (m a : list Q) :
  length m = length a →
  Forall2 Qeq
    (zip_with (λ m a, inject_Z (T - x) * m + inject_Z x * a)%Q m a)
    (zip_with Qplus ((λ v, v * inject_Z T)%Q <$> m)
                    ((λ v, inject_Z x * v)%Q <$> zip_with Qminus a m)).
Proof.
  revert a. induction m as [|u m IH]; intros [|v a] Hlen; simplify_eq/=;
    constructor; [|by apply IH].
  unfold Z.sub. rewrite inject_Z_plus, inject_Z_opp. ring.
Qed.

Lemma successive_pointwise (T x : Z) (m a : list Q) :
  length m = length a →
  Forall2 Qeq
    (zip_with (λ m a, inject_Z (T - (x + 1)) * m + inject_Z (x + 1) * a)%Q m a)
    (zip_with Qplus
       (zip_with (λ m a, inject_Z (T - x) * m + inject_Z x * a)%Q m a)
       (zip_with Qminus a m)).
Proof.
  revert a. induction m as [|u m IH]; intros [|v a] Hlen; simplify_eq/=;
    constructor; [|by apply IH].
  unfold Z.sub. rewrite !inject_Z_plus, !inject_Z_opp, inject_Z_plus.
  change (inject_Z 1) with 1%Q. ring.
Qed.

(** C9, as stated, fails in the arithmetic of the arrays: in binary64, with
    28 fractions, a mean fraction dose of 336.3 cGy and 579.6 cGy in the
    fraction with air, the dose of line 137 at step 1 is not the current
    course dose of line 106 plus the difference [air_dose - mean_dose] (it is
    larger), and the dose at step 2 is not the dose at step 1 plus that
    difference. *)
Lemma projection_not_affine_in_binary64 :
  let total_fractions := 28 in
  let mean_dose := example_mean_dose in
  let air_dose := example_air_dose in
  let difference := f64.sub air_dose mean_dose in
  let step x := f64.future_total_dose total_fractions mean_dose air_dose x in
  let current_plus x :=
    f64.add (f64.accumulated_dose mean_dose total_fractions)
            (f64.rmul x difference) in
  f64.array_equal (step 1) (current_plus 1) = false
  ∧ step 1 ≠ current_plus 1
  ∧ Forall2 (λ u v, (u <? v)%float = true) (current_plus 1) (step 1)
  ∧ f64.array_equal (step 2) (f64.add (step 1) difference) = false
  ∧ step 2 ≠ f64.add (step 1) difference.
Proof.
  cbv zeta. split; [vm_compute; reflexivity|]. split.
  { intros H. apply (f_equal (fmap Prim2SF)) in H. vm_compute in H.
    discriminate. }
  split; [repeat constructor; vm_compute; reflexivity|].
  split; [vm_compute; reflexivity|].
  intros H. apply (f_equal (fmap Prim2SF)) in H. vm_compute in H.
  discriminate.
Qed.

(** C9, amended. In exact arithmetic, with the doses as rationals: for grids
    of one shape, the hypothetical course dose at step [x] is the current
    course dose [mean_dose * total_fractions] plus [x] times the difference
    [air_dose - mean_dose], voxel by voxel, and the dose at step [x + 1] is
    the dose at step [x] plus that difference. *)
Theorem projection_affine total_fractions mean_dose air_dose x :
  shape mean_dose = shape air_dose → np.wf mean_dose → np.wf air_dose →
  ∃ step_x difference current_plus step_x1 step_x_plus,
    future_total_dose total_fractions mean_dose air_dose x = Ret step_x
    ∧ np.sub air_dose mean_dose = Ret difference
    ∧ np.add (np.mul mean_dose total_fractions) (np.rmul x difference)
      = Ret current_plus
    ∧ shape step_x = shape current_plus
    ∧ Forall2 Qeq (data step_x) (data current_plus)
    ∧ future_total_dose total_fractions mean_dose air_dose (x + 1) = Ret step_x1
    ∧ np.add step_x difference = Ret step_x_plus
    ∧ shape step_x1 = shape step_x_plus
    ∧ Forall2 Qeq (data step_x1) (data step_x_plus).
Proof.
  intros Hs Hm Ha.
  assert (length (data mean_dose) = length (data air_dose)) as Hlen
    by (unfold np.wf in *; congruence).
  eexists _, _, _, _, _.
  split; [by apply future_total_dose_same_shape|].
  split; [unfold np.sub; by apply binop_same_shape|].
  split.
  { unfold np.add. apply binop_same_shape; simpl; [done|by apply mul_wf|].
    apply rmul_wf. unfold np.wf. simpl.
    rewrite length_zip_with_l_eq by done. unfold np.wf in *. congruence. }
  split; [done|]. split; [by apply affine_pointwise|].
  split; [by apply future_total_dose_same_shape|].
  split.
  { unfold np.add. apply binop_same_shape; simpl; [done| |].
    - unfold np.wf. simpl. rewrite length_zip_with_l_eq by done. apply Hm.
    - unfold np.wf. simpl. rewrite length_zip_with_l_eq by done.
      unfold np.wf in *. congruence. }
  split; [done|]. by apply successive_pointwise.
Qed.

Lemma projection_affine_witness :
  ∃ step_x difference current_plus step_x1 step_x_plus,
    future_total_dose 10 (const_grid 500) (const_grid 700) 2 = Ret step_x
    ∧ np.sub (const_grid 700) (const_grid 500) = Ret difference
    ∧ np.add (np.mul (const_grid 500) 10) (np.rmul 2 difference)
      = Ret current_plus
    ∧ shape step_x = shape current_plus
    ∧ Forall2 Qeq (data step_x) (data current_plus)
    ∧ future_total_dose 10 (const_grid 500) (const_grid 700) (2 + 1) = Ret step_x1
    ∧ np.add step_x difference = Ret step_x_plus
    ∧ shape step_x1 = shape step_x_plus
    ∧ Forall2 Qeq (data step_x1) (data step_x_plus).
Proof. apply projection_affine; reflexivity. Defined.

(** One entry of the curve: the metrics of the hypothetical dose at [x]. *)
Lemma simulate_entries total_fractions mean_dose air_dose voxel_indices
    relative_volumes voxel_volume_cc t1 t2 (xs : list Z) (CG : list Q * list Q) :
  (∀ x, x ∈ xs → ∃ g m,
      future_total_dose total_fractions mean_dose air_dose x = Ret g
      ∧ roi_metrics g voxel_indices relative_volumes voxel_volume_cc t1 t2
        = Ret m) →
  ∃ entries : list (Q * Q),
    Forall2 (λ x m, ∃ g,
        future_total_dose total_fractions mean_dose air_dose x = Ret g
        ∧ roi_metrics g voxel_indices relative_volumes voxel_volume_cc t1 t2
          = Ret m) xs entries
    ∧ for_fold xs (λ x '(CG_v6000, CG_v6200),
        dose ← future_total_dose total_fractions mean_dose air_dose x;
        '(v6000, v6200) ← roi_metrics dose voxel_indices relative_volumes
                            voxel_volume_cc t1 t2;
        Ret (CG_v6000 ++ [v6000], CG_v6200 ++ [v6200])) CG
      = Ret (CG.1 ++ entries.*1, CG.2 ++ entries.*2).
Proof.
  revert CG. induction xs as [|x xs IH]; intros [c1 c2] Hxs.
  - exists []. split; [constructor|]. simpl. by rewrite !app_nil_r.
  - destruct (Hxs x) as (g & [v1 v2] & Hg & Hm); [by left|].
    destruct (IH (c1 ++ [v1], c2 ++ [v2])) as (entries & Hall & Hrun).
    { intros x' Hx'. apply Hxs. by right. }
    exists ((v1, v2) :: entries). split.
    + constructor; [by exists g|done].
    + simpl. rewrite Hg. simpl. rewrite Hm. simpl. rewrite Hrun. simpl.
      by rewrite <- !app_assoc.
Qed.

(** C1, as stated, fails in its last part: with 10 fractions of which 5 are
    delivered, a mean dose of 500 and an air dose of 700 per voxel, the last
    entry ([x = 5]) is computed on [5 * 500 + 5 * 700 = 6000] per voxel and
    not on [10 * 700 = 7000]. *)
Lemma last_step_is_not_full_air_course :
  ∃ g, future_total_dose 10 (const_grid 500) (const_grid 700) (10 - 5) = Ret g
       ∧ data g = [6000; 6000]%Q
       ∧ ¬ Forall2 Qeq (data g) (data (np.rmul 10 (const_grid 700))).
Proof.
  eexists. split; [vm_compute; reflexivity|]. split; [reflexivity|].
  simpl. intros H. apply Forall2_cons_1 in H as [H _]. vm_compute in H. done.
Qed.

(** C1, amended. For grids of one shape and ROI lists that fit them, the
    simulation returns two lists of [total_fractions - delivered_fractions]
    entries; the entry for [x] (at position [x - 1]) holds the metrics of the
    grid [(total_fractions - x) * mean_dose + x * air_dose]; for the last
    [x], this grid is
    [delivered_fractions * mean_dose + remaining_fractions * air_dose]. *)
Theorem simulate_curve total_fractions delivered_fractions mean_dose air_dose
    voxel_indices relative_volumes voxel_volume_cc t1 t2 :
  shape mean_dose = shape air_dose → np.wf mean_dose → np.wf air_dose →
  Forall (valid_index (length (data mean_dose))) voxel_indices →
  length voxel_indices = length relative_volumes →
  let remaining_fractions := total_fractions - delivered_fractions in
  ∃ CG_v6000 CG_v6200,
    simulate total_fractions delivered_fractions mean_dose air_dose
      voxel_indices relative_volumes voxel_volume_cc t1 t2 ([], [])
    = Ret (CG_v6000, CG_v6200)
    ∧ length CG_v6000 = Z.to_nat remaining_fractions
    ∧ length CG_v6200 = Z.to_nat remaining_fractions
    ∧ (∀ x, 1 ≤ x ≤ remaining_fractions →
        ∃ g v6000 v6200,
          future_total_dose total_fractions mean_dose air_dose x = Ret g
          ∧ data g = zip_with (λ m a, inject_Z (total_fractions - x) * m
                                      + inject_Z x * a)%Q
                       (data mean_dose) (data air_dose)
          ∧ roi_metrics g voxel_indices relative_volumes voxel_volume_cc t1 t2
            = Ret (v6000, v6200)
          ∧ CG_v6000 !! Z.to_nat (x - 1) = Some v6000
          ∧ CG_v6200 !! Z.to_nat (x - 1) = Some v6200)
    ∧ (1 ≤ remaining_fractions →
        ∃ g, future_total_dose total_fractions mean_dose air_dose
               remaining_fractions = Ret g
          ∧ data g = zip_with (λ m a, inject_Z delivered_fractions * m
                                      + inject_Z remaining_fractions * a)%Q
                       (data mean_dose) (data air_dose)).
Proof.
  intros Hs Hm Ha Hvalid Hlen remaining_fractions.
  assert (length (data mean_dose) = length (data air_dose)) as Hdata
    by (unfold np.wf in *; congruence).
  assert (∀ x, ∃ m,
    roi_metrics (NdArray (shape mean_dose)
        (zip_with (λ m a, inject_Z (total_fractions - x) * m + inject_Z x * a)%Q
                  (data mean_dose) (data air_dose)))
      voxel_indices relative_volumes voxel_volume_cc t1 t2 = Ret m) as Hmetrics.
  { intros x. apply roi_metrics_defined; [|done].
    simpl. by rewrite length_zip_with_l_eq. }
  unfold simulate. fold remaining_fractions. unfold range.
  replace (remaining_fractions + 1 - 1) with remaining_fractions by lia.
  edestruct (simulate_entries total_fractions mean_dose air_dose voxel_indices
      relative_volumes voxel_volume_cc t1 t2 (seqZ 1 remaining_fractions) ([], []))
    as (entries & Hall & Hrun).
  { intros x _. rewrite future_total_dose_same_shape by done.
    destruct (Hmetrics x) as [m ?]. eauto. }
  pose proof (Forall2_length _ _ _ Hall) as Hn. rewrite length_seqZ in Hn.
  exists (entries.*1), (entries.*2).
  split; [done|]. rewrite !length_fmap.
  split; [done|]. split; [done|]. split.
  - intros x Hx.
    assert (seqZ 1 remaining_fractions !! Z.to_nat (x - 1) = Some x) as Hlook.
    { rewrite lookup_seqZ. lia. }
    destruct (Forall2_lookup_l _ _ _ _ _ Hall Hlook)
      as ([v1 v2] & Hentry & g & Hg & Hv).
    exists g, v1, v2. split; [done|].
    rewrite future_total_dose_same_shape in Hg by done. simplify_eq. simpl.
    split; [done|]. split; [done|].
    rewrite !list_lookup_fmap, Hentry. done.
  - intros Hpos. eexists. split; [by apply future_total_dose_same_shape|].
    simpl. by replace (total_fractions - remaining_fractions)
      with delivered_fractions by (unfold remaining_fractions; lia).
Qed.

Lemma simulate_curve_witness :
  ∃ CG_v6000 CG_v6200,
    simulate 10 5 (const_grid 500) (const_grid 700) [0; 1] [1 # 2; 1 # 2]%Q
      1%Q 6000%Q 6200%Q ([], [])
    = Ret (CG_v6000, CG_v6200)
    ∧ length CG_v6000 = Z.to_nat (10 - 5)
    ∧ length CG_v6200 = Z.to_nat (10 - 5)
    ∧ (∀ x, 1 ≤ x ≤ 10 - 5 →
        ∃ g v6000 v6200,
          future_total_dose 10 (const_grid 500) (const_grid 700) x = Ret g
          ∧ data g = zip_with (λ m a, inject_Z (10 - x) * m + inject_Z x * a)%Q
                       (data (const_grid 500)) (data (const_grid 700))
          ∧ roi_metrics g [0; 1] [1 # 2; 1 # 2]%Q 1%Q 6000%Q 6200%Q
            = Ret (v6000, v6200)
          ∧ CG_v6000 !! Z.to_nat (x - 1) = Some v6000
          ∧ CG_v6200 !! Z.to_nat (x - 1) = Some v6200)
    ∧ (1 ≤ 10 - 5 →
        ∃ g, future_total_dose 10 (const_grid 500) (const_grid 700) (10 - 5)
             = Ret g
          ∧ data g = zip_with (λ m a, inject_Z 5 * m + inject_Z (10 - 5) * a)%Q
                       (data (const_grid 500)) (data (const_grid 700))).
Proof.
  apply (simulate_curve 10 5 (const_grid 500) (const_grid 700));
    [reflexivity | reflexivity | reflexivity | | reflexivity].
  repeat constructor; vm_compute; congruence.
Defined.

(** ** The two gates of [evaluate_rectal_air] *)

Lemma evaluate_after_gate rs total_fractions delivered_fractions st L st1 :
  5 ≤ delivered_fractions →
  current_goals rs total_fractions delivered_fractions st = (Ret L, st1) →
  evaluate_rectal_air rs total_fractions delivered_fractions st
  = if goal_exceeded (current_v6000 L) (current_v6200 L)
    then (SystemExit,
          State (heap st1)
            (MessageBox_Show (RectalDoseTooHigh (current_v6000 L) (current_v6200 L))
             :: trace st1))
    else predict rs total_fractions delivered_fractions L st1.
Proof.
  intros Hge Hcur. unfold evaluate_rectal_air.
  rewrite decide_False by lia.
  unfold mbind at 1, M_bind at 1. rewrite Hcur.
  by destruct (goal_exceeded _ _).
Qed.

(** C3. The count the gate works on is the reported count of delivered
    fractions minus one; when it is below 5, the run shows the dialog
    "Insufficient Fractions" and exits: no property of RayStation is read, no
    array is created or changed, nothing is plotted, whatever the doses. *)
Theorem insufficient_fractions rs st :
  reported_delivered_count rs - 1 < 5 →
  let st' := State (heap st)
               (MessageBox_Show (InsufficientFractions (reported_delivered_count rs - 1))
                :: trace st) in
  (get_fraction_info rs).2 = reported_delivered_count rs - 1
  ∧ run_analysis rs st = (SystemExit, st')
  ∧ (∀ total_fractions,
       evaluate_rectal_air rs total_fractions (reported_delivered_count rs - 1) st
       = (SystemExit, st'))
  ∧ decision SystemExit st' = Some InterveneInsufficientData.
Proof.
  intros Hlt st'.
  assert (∀ total_fractions,
    evaluate_rectal_air rs total_fractions (reported_delivered_count rs - 1) st
    = (SystemExit, st')) as Heval.
  { intros total_fractions. unfold evaluate_rectal_air.
    by rewrite decide_True by done. }
  split; [done|]. split; [|done].
  unfold run_analysis, get_fraction_info. apply Heval.
Qed.

Lemma insufficient_fractions_witness :
  let rs := {| plan_TreatmentFractions := 10;
               TreatmentFractions := fraction_at <$> seq 0 5;
               VoxelIndices := [0; 1];
               RelativeVolumes := [1 # 2; 1 # 2]%Q |} in
  let st' := State (heap demo_state)
               [MessageBox_Show (InsufficientFractions 4)] in
  (get_fraction_info rs).2 = 4
  ∧ run_analysis rs demo_state = (SystemExit, st')
  ∧ (∀ total_fractions,
       evaluate_rectal_air rs total_fractions 4 demo_state = (SystemExit, st'))
  ∧ decision SystemExit st' = Some InterveneInsufficientData.
Proof.
  intros rs st'. apply (insufficient_fractions rs demo_state). vm_compute. done.
Defined.

(** ** The fraction with air *)

(** C10, as stated, fails: the bound of the lookup is the length of the
    delivery course, not the number of planned fractions.  With a plan of
    five fractions and a delivery course of seven entries, all marked as
    delivered, the counts are 5 and 6; the run passes both gates, the lookup
    at index 6 is within the course, and the run ends with the plots of two
    empty curves.  The same holds with the counts 5 and 5. *)
Lemma air_lookup_within_course_beyond_plan :
  get_fraction_info long_rs = (5, 6)
  ∧ (∀ delivered_fractions, delivered_fractions = 5 ∨ delivered_fractions = 6 →
       ∃ L st1 f st',
         current_goals long_rs 5 delivered_fractions long_state = (Ret L, st1)
         ∧ goal_exceeded (current_v6000 L) (current_v6200 L) = false
         ∧ 5 ≤ delivered_fractions
         ∧ TreatmentFractions long_rs !! Z.to_nat delivered_fractions = Some f
         ∧ evaluate_rectal_air long_rs 5 delivered_fractions long_state
           = (Ret (), st')
         ∧ head (trace st')
           = Some (plot_prediction [] [] delivered_fractions 5))
  ∧ ∃ st', run_analysis long_rs long_state = (Ret (), st')
           ∧ decision (Ret ()) st' = Some Proceed.
Proof.
  split; [reflexivity|]. split.
  - intros d [-> | ->]; eexists _, _, _, _;
      (split; [vm_compute; reflexivity|]); (split; [vm_compute; reflexivity|]);
      (split; [lia|]); (split; [reflexivity|]);
      (split; [vm_compute; reflexivity|]); reflexivity.
  - eexists. split; [vm_compute; reflexivity|]. reflexivity.
Qed.

(** C10, amended. Past both gates the dose of the fraction with air is read
    at the 0-based index [delivered_fractions] of the delivery course.  The
    index is within the course exactly when [delivered_fractions] is below
    the number of its entries, whatever [total_fractions] is: the run then
    records the read and goes on with the simulation on the array of that
    entry; otherwise the run ends with an [IndexError] at this lookup, with
    nothing read and nothing plotted. *)
Theorem air_fraction_lookup rs total_fractions delivered_fractions st L st1 :
  5 ≤ delivered_fractions →
  current_goals rs total_fractions delivered_fractions st = (Ret L, st1) →
  goal_exceeded (current_v6000 L) (current_v6200 L) = false →
  let entries := Z.of_nat (length (TreatmentFractions rs)) in
  (delivered_fractions < entries →
   ∃ f, TreatmentFractions rs !! Z.to_nat delivered_fractions = Some f
        ∧ evaluate_rectal_air rs total_fractions delivered_fractions st
          = simulate_and_plot total_fractions delivered_fractions L (DoseData f)
              (State (heap st1)
                 (Read_DoseData delivered_fractions :: trace st1)))
  ∧ (entries ≤ delivered_fractions →
     TreatmentFractions rs !! Z.to_nat delivered_fractions = None
     ∧ evaluate_rectal_air rs total_fractions delivered_fractions st
       = (Raise IndexError, st1)).
Proof.
  intros Hge Hcur Hgoal entries.
  pose proof (evaluate_after_gate _ _ _ _ _ _ Hge Hcur) as Heval.
  rewrite Hgoal in Heval. rewrite Heval.
  unfold predict, get_DoseData, TreatmentFractions_at.
  rewrite decide_True by lia. split.
  - intros Hlt.
    destruct (lookup_lt_is_Some_2 (TreatmentFractions rs)
                (Z.to_nat delivered_fractions)) as [f Hf]; [lia|].
    exists f. split; [done|]. rewrite Hf. done.
  - intros Hle.
    assert (TreatmentFractions rs !! Z.to_nat delivered_fractions = None) as Hf
      by (apply lookup_ge_None_2; lia).
    split; [done|]. rewrite Hf. done.
Qed.

Lemma air_fraction_lookup_witness :
  ∃ L st1,
    current_goals long_rs 5 6 long_state = (Ret L, st1)
    ∧ goal_exceeded (current_v6000 L) (current_v6200 L) = false
    ∧ (6 < 7 →
       ∃ f, TreatmentFractions long_rs !! Z.to_nat 6 = Some f
            ∧ evaluate_rectal_air long_rs 5 6 long_state
              = simulate_and_plot 5 6 L (DoseData f)
                  (State (heap st1) (Read_DoseData 6 :: trace st1)))
    ∧ (7 ≤ 6 →
       TreatmentFractions long_rs !! Z.to_nat 6 = None
       ∧ evaluate_rectal_air long_rs 5 6 long_state = (Raise IndexError, st1)).
Proof.
  eexists _, _. split; [vm_compute; reflexivity|].
  split; [vm_compute; reflexivity|].
  apply (air_fraction_lookup long_rs 5 6 long_state);
    [lia | vm_compute; reflexivity | vm_compute; reflexivity].
Defined.

(** A course of five entries, all delivered and five planned: the lookup at
    index 5 is past the course and the run ends with the [IndexError]. *)
Example air_fraction_read_past_course :
  (evaluate_rectal_air short_rs 5 5 demo_state).1 = Raise IndexError.
Proof. vm_compute. reflexivity. Qed.

(** In the course of ten fractions with five delivered, the air dose is read
    at index 5 and the run ends with the plots. *)
Example air_fraction_read_in_range :
  ∃ st', evaluate_rectal_air demo_rs 10 5 demo_state = (Ret (), st')
         ∧ Read_DoseData 5 ∈ trace st'
         ∧ decision (Ret ()) st' = Some Proceed.
Proof.
  eexists. split; [vm_compute; reflexivity|].
  split; [|reflexivity]. simpl. by apply list_elem_of_further, list_elem_of_here.
Qed.

(** ** The accumulation loop *)

Lemma lookup_accumulator (h : list ndarray) acc : (h ++ [acc]) !! length h = Some acc.
Proof. by apply list_lookup_middle. Qed.

Lemma store_accumulator (h : list ndarray) acc acc' :
  <[length h:=acc']> (h ++ [acc]) = h ++ [acc'].
Proof.
  replace (length h) with (length h + 0)%nat by lia.
  by rewrite insert_app_r.
Qed.

(** One pass through the body of the loop, the accumulator being the last
    object of the heap. *)
Lemma accumulate_step rs h acc tr i :
  (∀ f, TreatmentFractions_at rs i = Ret f → (DoseData f < length h)%nat) →
  (d ← get_DoseData rs i; iadd (length h) d) (State (h ++ [acc]) tr)
  = match TreatmentFractions_at rs i with
    | Ret f =>
        let tr' := Read_DoseData i :: tr in
        match h !! DoseData f with
        | Some g =>
            match np.iadd acc g with
            | Ret acc' => (Ret (), State (h ++ [acc']) tr')
            | SystemExit => (SystemExit, State (h ++ [acc]) tr')
            | Raise e => (Raise e, State (h ++ [acc]) tr')
            end
        | None => (Raise AttributeError, State (h ++ [acc]) tr')
        end
    | SystemExit => (SystemExit, State (h ++ [acc]) tr)
    | Raise e => (Raise e, State (h ++ [acc]) tr)
    end.
Proof.
  intros Hok. unfold get_DoseData, iadd, mbind, M_bind, lift, load, emit.
  destruct (TreatmentFractions_at rs i) as [f| |e]; [|done..].
  specialize (Hok f eq_refl). simpl.
  rewrite lookup_accumulator, lookup_app_l by done. simpl.
  destruct (h !! DoseData f) as [g|]; simpl; [|done].
  destruct (np.iadd acc g) as [acc'| |e]; simpl; [|done..].
  unfold store. simpl. by rewrite store_accumulator.
Qed.

(** The loop on the heap does what [sum_fractions] says: it only changes the
    accumulator. *)
Lemma accumulate_loop rs idx : ∀ h acc tr,
  (∀ i f, i ∈ idx → TreatmentFractions_at rs i = Ret f →
          (DoseData f < length h)%nat) →
  for_ idx (λ i, d ← get_DoseData rs i; iadd (length h) d)
       (State (h ++ [acc]) tr)
  = let '(r, acc', evs) := sum_fractions rs h idx acc in
    (r, State (h ++ [acc']) (evs ++ tr)).
Proof.
  induction idx as [|i idx IH]; intros h acc tr Hok; [done|].
  simpl. unfold mbind at 1, M_bind at 1.
  rewrite accumulate_step by (intros; eapply Hok; [by left|done]).
  destruct (TreatmentFractions_at rs i) as [f| |e]; [|done..].
  simpl. destruct (h !! DoseData f) as [g|]; [|done].
  destruct (np.iadd acc g) as [acc'| |e]; [|done..].
  rewrite IH by (intros; eapply Hok; [by right|done]).
  destruct (sum_fractions rs h idx acc') as [[r acc''] evs].
  by rewrite <- app_assoc.
Qed.

Lemma TreatmentFractions_at_elem rs i f :
  TreatmentFractions_at rs i = Ret f → f ∈ TreatmentFractions rs.
Proof.
  unfold TreatmentFractions_at. case_decide; [|done].
  destruct (TreatmentFractions rs !! Z.to_nat i) as [f'|] eqn:Hf; [|done].
  intros [= <-]. by eapply list_elem_of_lookup_2.
Qed.

(** The block [accumulate] in terms of [sum_fractions]: one array is
    created, the objects that were there before are left as they are. *)
Lemma accumulate_run rs grid_shape delivered_fractions h tr :
  (∀ i f, i ∈ range 0 delivered_fractions →
          TreatmentFractions_at rs i = Ret f → (DoseData f < length h)%nat) →
  accumulate rs grid_shape delivered_fractions (State h tr)
  = let '(r, summed, evs) :=
      sum_fractions rs h (range 0 delivered_fractions)
        (np.zeros [z_ grid_shape; y_ grid_shape; x_ grid_shape]) in
    (match r with
     | Ret _ => Ret (length h, np.div summed delivered_fractions)
     | SystemExit => SystemExit
     | Raise e => Raise e
     end, State (h ++ [summed]) (evs ++ tr)).
Proof.
  intros Hok. unfold accumulate.
  unfold mbind at 1, M_bind at 1. unfold alloc at 1. simpl.
  unfold mbind at 1, M_bind at 1.
  rewrite (accumulate_loop rs _ h _ tr Hok).
  destruct (sum_fractions _ _ _ _) as [[r summed] evs].
  destruct r as [[]| |e]; [|done..].
  unfold mbind, M_bind, load. simpl. by rewrite lookup_accumulator.
Qed.

(** Objects created later do not change what the loop computes. *)
Lemma sum_fractions_ext rs h ext idx : ∀ acc,
  (∀ i f, i ∈ idx → TreatmentFractions_at rs i = Ret f →
          (DoseData f < length h)%nat) →
  sum_fractions rs (h ++ ext) idx acc = sum_fractions rs h idx acc.
Proof.
  induction idx as [|i idx IH]; intros acc Hok; [done|].
  simpl. destruct (TreatmentFractions_at rs i) as [f| |e] eqn:Hf; [|done..].
  rewrite lookup_app_l by (eapply Hok; [by left|done]).
  destruct (h !! DoseData f) as [g|]; [|done].
  destruct (np.iadd acc g) as [acc'| |e]; [|done..].
  by rewrite IH by (intros; eapply Hok; [by right|done]).
Qed.


Lemma iadd_cases acc g :
  match np.broadcast_to (shape acc) g with
  | Some _ => ∃ acc', np.iadd acc g = Ret acc'
  | None => np.iadd acc g = Raise ValueError
  end.
Proof. unfold np.iadd. destruct (np.broadcast_to _ _); simpl; eauto. Qed.


(** Grids of the shape of the accumulator are added voxel by voxel. *)
Lemma sum_fractions_grids rs h gs : ∀ a acc,
  (∀ k g, gs !! k = Some g →
     ∃ f, TreatmentFractions rs !! (a + k)%nat = Some f
          ∧ h !! DoseData f = Some g ∧ shape g = shape acc ∧ np.wf g) →
  ∃ evs,
    sum_fractions rs h (seqZ (Z.of_nat a) (Z.of_nat (length gs))) acc
    = (Ret (),
       NdArray (shape acc) (foldl (zip_with Qplus) (data acc) (data <$> gs)),
       evs).
Proof.
  induction gs as [|g gs IH]; intros a acc Hgs.
  { exists []. by destruct acc. }
  rewrite seqZ_cons by (simpl; lia).
  replace (Z.succ (Z.of_nat a)) with (Z.of_nat (S a)) by lia.
  replace (Z.pred (Z.of_nat (length (g :: gs)))) with (Z.of_nat (length gs))
    by (simpl; lia).
  destruct (Hgs 0%nat g eq_refl) as (f & Hf & Hg & Hshape & Hwf).
  rewrite Nat.add_0_r in Hf.
  simpl. unfold TreatmentFractions_at.
  rewrite decide_True by lia. rewrite Nat2Z.id, Hf. simpl. rewrite Hg.
  rewrite (iadd_same_shape acc g Hshape Hwf).
  edestruct (IH (S a) (NdArray (shape acc) (zip_with Qplus (data acc) (data g))))
    as [evs ->].
  { intros k g' Hk. destruct (Hgs (S k) g' Hk) as (f' & ? & ? & ? & ?).
    exists f'. by replace (S a + k)%nat with (a + S k)%nat by lia. }
  eauto.
Qed.

Lemma zip_plus_lookup (d d' : list Q) j :
  (j < length d)%nat → length d' = length d →
  zip_with Qplus d d' !!! j = (d !!! j + d' !!! j)%Q.
Proof.
  intros Hj Hlen.
  destruct (lookup_lt_is_Some_2 d j Hj) as [u Hu].
  destruct (lookup_lt_is_Some_2 d' j) as [v Hv]; [lia|].
  apply list_lookup_total_correct. rewrite lookup_zip_with, Hu, Hv. simpl.
  by rewrite (list_lookup_total_correct _ _ _ Hu),
             (list_lookup_total_correct _ _ _ Hv).
Qed.

Lemma foldl_zip_plus_length (ds : list (list Q)) : ∀ d,
  Forall (λ d', length d' = length d) ds →
  length (foldl (zip_with Qplus) d ds) = length d.
Proof.
  induction ds as [|d1 ds IH]; intros d Hds; [done|].
  apply Forall_cons in Hds as [H1 Hds]. simpl.
  rewrite IH; rewrite length_zip_with_l_eq by done; [done|].
  eapply Forall_impl; [done|]. simpl. congruence.
Qed.

Lemma foldl_zip_plus_lookup (ds : list (list Q)) j : ∀ d,
  Forall (λ d', length d' = length d) ds → (j < length d)%nat →
  (foldl (zip_with Qplus) d ds !!! j
   == d !!! j + np.sum ((λ d', d' !!! j) <$> ds))%Q.
Proof.
  induction ds as [|d1 ds IH]; intros d Hds Hj; simpl.
  { by rewrite Qplus_0_r. }
  apply Forall_cons in Hds as [H1 Hds].
  rewrite IH.
  - rewrite zip_plus_lookup by done. apply Qeq_sym, Qplus_assoc.
  - rewrite length_zip_with_l_eq by done.
    eapply Forall_impl; [done|]. simpl. congruence.
  - by rewrite length_zip_with_l_eq.
Qed.

(** Grids of the shape of the dose grid: the new object [delivered_dose]
    holds their voxel-wise sum, [mean_dose] is this sum divided by their
    number, and the objects that were there before are left as they are. *)
Lemma accumulate_same_shape rs grid_shape delivered_fractions st
    (grids : list ndarray) :
  let s := [z_ grid_shape; y_ grid_shape; x_ grid_shape] in
  1 ≤ delivered_fractions →
  Z.of_nat (length grids) = delivered_fractions →
  (∀ k g, grids !! k = Some g →
     ∃ f, TreatmentFractions rs !! k = Some f
          ∧ heap st !! DoseData f = Some g ∧ shape g = s ∧ np.wf g) →
  ∃ summed mean st',
    accumulate rs grid_shape delivered_fractions st
    = (Ret (length (heap st), mean), st')
    ∧ heap st' = heap st ++ [summed]
    ∧ shape summed = s ∧ np.wf summed
    ∧ (∀ j, (j < np.size s)%nat →
         (data summed !!! j == elementwise_sum grids j)%Q)
    ∧ shape mean = s
    ∧ data mean = (λ v, v / inject_Z (Z.of_nat (length grids)))%Q <$> data summed
    ∧ (∀ l a, heap st !! l = Some a → heap st' !! l = Some a).
Proof.
  intros s Hpos Hn Hgrids. destruct st as [h tr]. simpl in *.
  rewrite accumulate_run; last first.
  { intros i f Hi Hf. unfold range in Hi. apply elem_of_seqZ in Hi.
    unfold TreatmentFractions_at in Hf. rewrite decide_True in Hf by lia.
    destruct (TreatmentFractions rs !! Z.to_nat i) as [f'|] eqn:Hf'; [|done].
    simplify_eq/=.
    destruct (lookup_lt_is_Some_2 grids (Z.to_nat i)) as [g Hg]; [lia|].
    destruct (Hgrids _ _ Hg) as (f' & ? & Hh & _). simplify_eq.
    by eapply lookup_lt_Some. }
  unfold range. rewrite Z.sub_0_r, <- Hn.
  destruct (sum_fractions_grids rs h grids 0%nat (np.zeros s)) as [evs Hsum].
  { intros k g Hg. destruct (Hgrids k g Hg) as (f & ? & ? & ? & ?). eauto. }
  change (Z.of_nat 0) with 0 in Hsum. fold s. rewrite Hsum. simpl.
  assert (Forall (λ d', length d' = length (replicate (np.size s) 0%Q))
                 (data <$> grids)) as Hlens.
  { apply Forall_fmap, Forall_lookup_2. intros k g Hg.
    destruct (Hgrids k g Hg) as (f & _ & _ & Hs & Hwf).
    unfold compose. rewrite length_replicate, <- Hs. apply Hwf. }
  eexists _, _, _. split; [reflexivity|]. simpl.
  split; [done|]. split; [done|]. split.
  { unfold np.wf. simpl. rewrite foldl_zip_plus_length by done.
    apply length_replicate. }
  split.
  { intros j Hj.
    eapply Qeq_trans;
      [apply foldl_zip_plus_lookup; [done|by rewrite length_replicate]|].
    rewrite lookup_total_replicate_2 by done.
    unfold elementwise_sum. rewrite <- list_fmap_compose. apply Qplus_0_l. }
  split; [done|]. split; [done|].
  intros l a Hl. rewrite lookup_app_l; [done|]. by eapply lookup_lt_Some.
Qed.

(** C5. When the [N >= 1] delivered fractions have grids of the shape of the
    dose grid, the block returns the array object [delivered_dose], whose
    content is the voxel-wise sum of the [N] grids, and [mean_dose], which is
    this sum divided voxel-wise by [N]; the only change to the heap is the
    new object, so no grid of RayStation is touched. *)
Theorem accumulate_sum_mean rs grid_shape delivered_fractions st
    (grids : list ndarray) :
  let s := [z_ grid_shape; y_ grid_shape; x_ grid_shape] in
  1 ≤ delivered_fractions →
  Z.of_nat (length grids) = delivered_fractions →
  (∀ k g, grids !! k = Some g →
     ∃ f, TreatmentFractions rs !! k = Some f
          ∧ heap st !! DoseData f = Some g ∧ shape g = s ∧ np.wf g) →
  ∃ summed mean st',
    accumulate rs grid_shape delivered_fractions st
    = (Ret (length (heap st), mean), st')
    ∧ heap st' = heap st ++ [summed]
    ∧ shape summed = s ∧ np.wf summed
    ∧ (∀ j, (j < np.size s)%nat →
         (data summed !!! j == elementwise_sum grids j)%Q)
    ∧ shape mean = s
    ∧ data mean = (λ v, v / inject_Z (Z.of_nat (length grids)))%Q <$> data summed
    ∧ (∀ l a, heap st !! l = Some a → heap st' !! l = Some a).
Proof. apply accumulate_same_shape. Qed.

Lemma accumulate_sum_mean_witness :
  let grids := replicate 5 (const_grid 200) in
  let s := [1; 1; 2]%nat in
  ∃ summed mean st',
    accumulate demo_rs (XYZ 2 1 1)%nat 5 demo_state
    = (Ret (length (heap demo_state), mean), st')
    ∧ heap st' = heap demo_state ++ [summed]
    ∧ shape summed = s ∧ np.wf summed
    ∧ (∀ j, (j < np.size s)%nat →
         (data summed !!! j == elementwise_sum grids j)%Q)
    ∧ shape mean = s
    ∧ data mean = (λ v, v / inject_Z (Z.of_nat (length grids)))%Q <$> data summed
    ∧ (∀ l a, heap demo_state !! l = Some a → heap st' !! l = Some a).
Proof.
  intros grids s.
  apply (accumulate_sum_mean demo_rs (XYZ 2 1 1)%nat 5 demo_state grids);
    [lia | reflexivity |].
  intros k g Hg. exists (fraction_at k).
  do 5 (destruct k as [|k]; [simplify_eq/=; by repeat split|]).
  done.
Defined.

(** The worked example of the accumulation: five constant grids of 1000 cGy
    have the constant mean grid 1000 cGy. *)
Example accumulate_example :
  ∃ l mean st',
    accumulate demo_rs (XYZ 2 1 1)%nat 5
      (State (replicate 5 (const_grid 1000)) []) = (Ret (l, mean), st')
    ∧ heap st' !! l = Some (const_grid (0 + 1000 + 1000 + 1000 + 1000 + 1000))
    ∧ shape mean = [1; 1; 2]%nat
    ∧ Forall2 Qeq (data mean) [1000; 1000]%Q.
Proof.
  eexists _, _, _. split; [vm_compute; reflexivity|].
  split; [reflexivity|]. split; [reflexivity|].
  by repeat constructor.
Qed.

Lemma TreatmentFractions_at_lookup rs i f :
  0 ≤ i → TreatmentFractions rs !! Z.to_nat i = Some f →
  TreatmentFractions_at rs i = Ret f.
Proof.
  intros Hi Hf. unfold TreatmentFractions_at.
  rewrite decide_True by done. by rewrite Hf.
Qed.




(** The run on the course whose fifth fraction has an array of shape [(3,)]
    ends with the [ValueError], and so does a run with two voxel indices and
    one weight with the [IndexError]. *)
Example dimension_mismatch_runs :
  (evaluate_rectal_air demo_rs 10 5 clash_state).1 = Raise ValueError
  ∧ (evaluate_rectal_air one_weight_rs 10 5 demo_state).1 = Raise IndexError.
Proof. split; vm_compute; reflexivity. Qed.

(** ** The second gate *)

(** With grids of the shape of the dose grid for the delivered fractions and
    ROI lists that fit the grid, the current metrics are computed. *)
Lemma current_goals_defined rs total_fractions delivered_fractions st
    (grids : list ndarray) f0 :
  let s := [z_ (NrVoxels f0); y_ (NrVoxels f0); x_ (NrVoxels f0)] in
  1 ≤ delivered_fractions →
  Z.of_nat (length grids) = delivered_fractions →
  TreatmentFractions rs !! 0%nat = Some f0 →
  (∀ k g, grids !! k = Some g →
     ∃ f, TreatmentFractions rs !! k = Some f
          ∧ heap st !! DoseData f = Some g ∧ shape g = s ∧ np.wf g) →
  Forall (valid_index (np.size s)) (VoxelIndices rs) →
  length (VoxelIndices rs) = length (RelativeVolumes rs) →
  ∃ L st1,
    current_goals rs total_fractions delivered_fractions st = (Ret L, st1).
Proof.
  intros s Hpos Hn Hf0 Hgrids Hvalid Hlen.
  destruct (accumulate_same_shape rs (NrVoxels f0) delivered_fractions
              (State (heap st) (Read_InDoseGrid 0 :: GetDoseGridRoi "Rectum"
                                :: trace st)) grids Hpos Hn Hgrids)
    as (summed & mean & st' & Hacc & _ & Hshape & Hwf & _ & Hs & Hmean & _).
  destruct (roi_metrics_defined (np.mul mean total_fractions) (VoxelIndices rs)
              (RelativeVolumes rs)
              (x_ (VoxelSize f0) * y_ (VoxelSize f0) * z_ (VoxelSize f0))%Q
              threshold_v6000 threshold_v6200) as [[v1 v2] Hm]; [|done|].
  { simpl. by rewrite length_fmap, Hmean, length_fmap, Hwf, Hshape. }
  unfold current_goals, get_InDoseGrid.
  rewrite (TreatmentFractions_at_lookup rs 0 f0) by done.
  unfold mbind, M_bind, emit, lift, mret, M_ret. simpl.
  simpl in Hacc. rewrite Hacc, Hm. eauto.
Qed.

(** C4. Past the first gate the current metrics are those of
    [mean_dose * total_fractions] for the thresholds 6000 and 6200 cGy; when
    V6000 is at least 3 % or V6200 at least 2 cc, the run shows the dialog
    "Rectal Dose Too High" with these metrics and exits at once: the dose of
    the fraction with air is not read, nothing is simulated or plotted. *)
Theorem goal_exceeded_exits rs total_fractions delivered_fractions st L st1 :
  5 ≤ delivered_fractions →
  current_goals rs total_fractions delivered_fractions st = (Ret L, st1) →
  (3 <= current_v6000 L ∨ 2 <= current_v6200 L)%Q →
  let st' := State (heap st1)
               (MessageBox_Show (RectalDoseTooHigh (current_v6000 L) (current_v6200 L))
                :: trace st1) in
  roi_metrics (np.mul (mean_dose L) total_fractions) (voxel_indices L)
    (relative_volumes L) (voxel_volume_cc L) 6000%Q 6200%Q
  = Ret (current_v6000 L, current_v6200 L)
  ∧ evaluate_rectal_air rs total_fractions delivered_fractions st
    = (SystemExit, st')
  ∧ decision SystemExit st' = Some InterveneGoalExceeded.
Proof.
  intros Hge Hcur Hlimit st'. split; [|split; [|done]].
  - revert Hcur. unfold current_goals.
    unfold mbind, M_bind, mret, M_ret, emit, lift.
    repeat (case_match; simplify_eq/=; try done).
    intros; simplify_eq/=. done.
  - rewrite (evaluate_after_gate _ _ _ _ _ _ Hge Hcur).
    assert (goal_exceeded (current_v6000 L) (current_v6200 L) = true) as ->; [|done].
    unfold goal_exceeded. apply orb_true_iff.
    destruct Hlimit as [H|H]; [left|right]; by apply Qle_bool_iff.
Qed.

Lemma goal_exceeded_exits_witness :
  ∃ L st1,
    current_goals demo_rs 10 5 hot_state = (Ret L, st1)
    ∧ (3 <= current_v6000 L ∨ 2 <= current_v6200 L)%Q
    ∧ roi_metrics (np.mul (mean_dose L) 10) (voxel_indices L)
        (relative_volumes L) (voxel_volume_cc L) 6000%Q 6200%Q
      = Ret (current_v6000 L, current_v6200 L)
    ∧ evaluate_rectal_air demo_rs 10 5 hot_state
      = (SystemExit,
         State (heap st1)
           (MessageBox_Show (RectalDoseTooHigh (current_v6000 L) (current_v6200 L))
            :: trace st1))
    ∧ decision SystemExit
        (State (heap st1)
           (MessageBox_Show (RectalDoseTooHigh (current_v6000 L) (current_v6200 L))
            :: trace st1))
      = Some InterveneGoalExceeded.
Proof.
  eexists _, _. split; [vm_compute; reflexivity|].
  split; [left; vm_compute; congruence|].
  apply (goal_exceeded_exits demo_rs 10 5 hot_state);
    [lia | vm_compute; reflexivity | left; vm_compute; congruence].
Defined.

(** The clinical limits are inclusive: V6000 = 3 % exactly, or
    V6200 = 2 cc exactly, counts as exceeded. *)
Example goal_exceeded_at_limit :
  goal_exceeded 3 0 = true ∧ goal_exceeded 0 2 = true
  ∧ goal_exceeded (299 # 100) (199 # 100) = false.
Proof. by vm_compute. Qed.


(** ** Runs depend on the arrays of RayStation only *)

Lemma provider_ok_at rs h i f :
  provider_ok rs h → TreatmentFractions_at rs i = Ret f →
  (DoseData f < length h)%nat.
Proof. intros Hok Hf. by eapply Hok, TreatmentFractions_at_elem. Qed.

(** What [accumulate] returns, the events it adds and the array it creates
    are the same whatever other objects [ext0] the heap holds and whatever
    happened before. *)
Lemma accumulate_char rs grid_shape delivered_fractions h :
  provider_ok rs h →
  ∃ (r : result ndarray) evs summed, ∀ ext0 tr,
    accumulate rs grid_shape delivered_fractions (State (h ++ ext0) tr)
    = (match r with
       | Ret mean => Ret (length (h ++ ext0), mean)
       | SystemExit => SystemExit
       | Raise e => Raise e
       end, State (h ++ ext0 ++ [summed]) (evs ++ tr)).
Proof.
  intros Hok.
  destruct (sum_fractions rs h (range 0 delivered_fractions)
              (np.zeros [z_ grid_shape; y_ grid_shape; x_ grid_shape]))
    as [[r summed] evs] eqn:Hsum.
  exists (match r with
          | Ret _ => Ret (np.div summed delivered_fractions)
          | SystemExit => SystemExit
          | Raise e => Raise e
          end), evs, summed.
  intros ext0 tr. rewrite accumulate_run; last first.
  { intros i f _ Hf. rewrite length_app.
    pose proof (provider_ok_at _ _ _ _ Hok Hf). lia. }
  rewrite sum_fractions_ext by (intros; by eapply provider_ok_at).
  rewrite Hsum, <- app_assoc. by destruct r.
Qed.

(** Runs one block on the state [State (h ++ ext0) tr], given the equations
    of its parts. *)
Ltac run_block :=
  let ext0 := fresh "ext0" in
  let tr := fresh "tr" in
  intros ext0 tr;
  unfold mbind, M_bind, emit, lift, load, mret, M_ret; simpl;
  repeat match goal with
         | H : ∀ ext0 tr, _ = _ |- _ => rewrite H; simpl
         | H : ∀ ext0, _ = _ |- _ => rewrite H; simpl
         | H : _ = _ |- _ => rewrite H; simpl
         end;
  rewrite <- ?app_assoc, ?app_nil_r; try done.

Lemma current_goals_char rs total_fractions delivered_fractions h :
  provider_ok rs h →
  ∃ (r : result locals) evs ext, ∀ ext0 tr,
    current_goals rs total_fractions delivered_fractions (State (h ++ ext0) tr)
    = (r, State (h ++ ext0 ++ ext) (evs ++ tr)).
Proof.
  intros Hok. unfold current_goals, get_InDoseGrid.
  destruct (TreatmentFractions_at rs 0) as [f0| |e].
  2:{ exists SystemExit, [GetDoseGridRoi "Rectum"], []. run_block. }
  2:{ exists (Raise e), [GetDoseGridRoi "Rectum"], []. run_block. }
  destruct (accumulate_char rs (NrVoxels f0) delivered_fractions h Hok)
    as (racc & evs & summed & Hacc).
  destruct racc as [mean| |e].
  2:{ exists SystemExit, (evs ++ [Read_InDoseGrid 0; GetDoseGridRoi "Rectum"]),
        [summed]. run_block. }
  2:{ exists (Raise e), (evs ++ [Read_InDoseGrid 0; GetDoseGridRoi "Rectum"]),
        [summed]. run_block. }
  destruct (roi_metrics (np.mul mean total_fractions) (VoxelIndices rs)
              (RelativeVolumes rs)
              (x_ (VoxelSize f0) * y_ (VoxelSize f0) * z_ (VoxelSize f0))%Q
              threshold_v6000 threshold_v6200) as [[v1 v2]| |e] eqn:Hm.
  - exists (Ret (Locals (VoxelIndices rs) (RelativeVolumes rs)
              (x_ (VoxelSize f0) * y_ (VoxelSize f0) * z_ (VoxelSize f0))%Q
              mean v1 v2)),
      (evs ++ [Read_InDoseGrid 0; GetDoseGridRoi "Rectum"]), [summed].
    run_block.
  - exists SystemExit, (evs ++ [Read_InDoseGrid 0; GetDoseGridRoi "Rectum"]),
      [summed]. run_block.
  - exists (Raise e), (evs ++ [Read_InDoseGrid 0; GetDoseGridRoi "Rectum"]),
      [summed]. run_block.
Qed.

Lemma predict_char rs total_fractions delivered_fractions L h :
  provider_ok rs h →
  ∃ (r : result unit) evs, ∀ ext0 tr,
    predict rs total_fractions delivered_fractions L (State (h ++ ext0) tr)
    = (r, State (h ++ ext0) (evs ++ tr)).
Proof.
  intros Hok. unfold predict, simulate_and_plot, get_DoseData.
  destruct (TreatmentFractions_at rs delivered_fractions) as [f| |e] eqn:Hf.
  2:{ exists SystemExit, []. run_block. }
  2:{ exists (Raise e), []. run_block. }
  pose proof (provider_ok_at _ _ _ _ Hok Hf) as Hlt.
  assert (∀ ext0, (h ++ ext0) !! DoseData f = h !! DoseData f) as Hlook
    by (intros; by apply lookup_app_l).
  clear Hf. destruct (h !! DoseData f) as [air_dose|].
  2:{ exists (Raise AttributeError), [Read_DoseData delivered_fractions].
      run_block. }
  destruct (simulate total_fractions delivered_fractions (mean_dose L) air_dose
              (voxel_indices L) (relative_volumes L) (voxel_volume_cc L)
              threshold_v6000 threshold_v6200 ([], []))
    as [[CG_v6000 CG_v6200]| |e] eqn:Hsim.
  - exists (Ret ()),
      [plot_prediction CG_v6000 CG_v6200 delivered_fractions total_fractions;
       Read_DoseData delivered_fractions].
    run_block.
  - exists SystemExit, [Read_DoseData delivered_fractions]. run_block.
  - exists (Raise e), [Read_DoseData delivered_fractions]. run_block.
Qed.

(** The outcome of a run, its events and the array it creates do not depend
    on the other objects of the heap nor on what happened before. *)
Lemma evaluate_char rs total_fractions delivered_fractions h :
  provider_ok rs h →
  ∃ (r : result unit) evs ext, ∀ ext0 tr,
    evaluate_rectal_air rs total_fractions delivered_fractions
      (State (h ++ ext0) tr)
    = (r, State (h ++ ext0 ++ ext) (evs ++ tr)).
Proof.
  intros Hok. unfold evaluate_rectal_air.
  destruct (decide (delivered_fractions < 5)).
  { exists SystemExit,
      [MessageBox_Show (InsufficientFractions delivered_fractions)], [].
    intros ext0 tr. by rewrite app_nil_r. }
  destruct (current_goals_char rs total_fractions delivered_fractions h Hok)
    as (rL & evs & ext & Hcur).
  destruct rL as [L| |e].
  2:{ exists SystemExit, evs, ext. intros ext0 tr.
      unfold mbind at 1, M_bind at 1. by rewrite Hcur. }
  2:{ exists (Raise e), evs, ext. intros ext0 tr.
      unfold mbind at 1, M_bind at 1. by rewrite Hcur. }
  destruct (goal_exceeded (current_v6000 L) (current_v6200 L)) eqn:Hgoal.
  { exists SystemExit,
      (MessageBox_Show (RectalDoseTooHigh (current_v6000 L) (current_v6200 L))
       :: evs), ext.
    intros ext0 tr. unfold mbind at 1, M_bind at 1. by rewrite Hcur, Hgoal. }
  destruct (predict_char rs total_fractions delivered_fractions L h Hok)
    as (r & evs' & Hpred).
  exists r, (evs' ++ evs), ext. intros ext0 tr.
  unfold mbind at 1, M_bind at 1. rewrite Hcur, Hgoal.
  rewrite Hpred. by rewrite <- !app_assoc.
Qed.

Lemma provider_ok_app rs h ext : provider_ok rs h → provider_ok rs (h ++ ext).
Proof. intros Hok f Hf. rewrite length_app. specialize (Hok f Hf). lia. Qed.

(** C8. With the arrays of the fractions in the heap, a run and a second run
    from the state the first one leaves end in the same way and add the same
    events (the same dialog with the same metrics, or the same plots), and the
    current metrics computed on the way are the same; the first run changes
    none of the objects that were there before it. *)
Theorem evaluate_idempotent rs total_fractions delivered_fractions st :
  provider_ok rs (heap st) →
  ∃ r evs st1 st2,
    evaluate_rectal_air rs total_fractions delivered_fractions st = (r, st1)
    ∧ evaluate_rectal_air rs total_fractions delivered_fractions st1 = (r, st2)
    ∧ trace st1 = evs ++ trace st
    ∧ trace st2 = evs ++ trace st1
    ∧ decision r st1 = decision r st2
    ∧ (current_goals rs total_fractions delivered_fractions st).1
      = (current_goals rs total_fractions delivered_fractions st1).1
    ∧ (∀ l a, heap st !! l = Some a → heap st1 !! l = Some a).
Proof.
  intros Hok. destruct st as [h tr]. simpl in Hok.
  destruct (evaluate_char rs total_fractions delivered_fractions h Hok)
    as (r & evs & ext & Heval).
  destruct (current_goals_char rs total_fractions delivered_fractions h Hok)
    as (rL & evsL & extL & Hcur).
  exists r, evs, (State (h ++ ext) (evs ++ tr)),
    (State (h ++ ext ++ ext) (evs ++ evs ++ tr)).
  pose proof (Heval [] tr) as H1. rewrite app_nil_r in H1. simpl in H1.
  split; [done|]. split; [apply Heval|]. split; [done|]. split; [done|].
  split.
  { unfold decision. simpl. by destruct evs. }
  split.
  { pose proof (Hcur [] tr) as H2. rewrite app_nil_r in H2.
    simpl in H2. by rewrite H2, (Hcur ext). }
  intros l a Hl. simpl in *. rewrite lookup_app_l; [done|].
  by eapply lookup_lt_Some.
Qed.

Lemma demo_provider_ok : provider_ok demo_rs (heap demo_state).
Proof.
  intros f Hf. apply list_elem_of_fmap in Hf as (k & -> & Hk).
  apply elem_of_seq in Hk. simpl. lia.
Defined.

Lemma evaluate_idempotent_witness :
  ∃ r evs st1 st2,
    evaluate_rectal_air demo_rs 10 5 demo_state = (r, st1)
    ∧ evaluate_rectal_air demo_rs 10 5 st1 = (r, st2)
    ∧ trace st1 = evs ++ trace demo_state
    ∧ trace st2 = evs ++ trace st1
    ∧ decision r st1 = decision r st2
    ∧ (current_goals demo_rs 10 5 demo_state).1
      = (current_goals demo_rs 10 5 st1).1
    ∧ (∀ l a, heap demo_state !! l = Some a → heap st1 !! l = Some a).
Proof. apply (evaluate_idempotent demo_rs 10 5 demo_state), demo_provider_ok. Defined.

(** Two runs in a row on the worked course: both end with the same plots. *)
Example evaluate_twice :
  ∃ st1 st2 CG_v6000 CG_v6200,
    evaluate_rectal_air demo_rs 10 5 demo_state = (Ret (), st1)
    ∧ evaluate_rectal_air demo_rs 10 5 st1 = (Ret (), st2)
    ∧ head (trace st1) = Some (plot_prediction CG_v6000 CG_v6200 5 10)
    ∧ head (trace st2) = Some (plot_prediction CG_v6000 CG_v6200 5 10)
    ∧ length CG_v6000 = 5%nat.
Proof.
  eexists _, _, _, _. split; [vm_compute; reflexivity|].
  split; [vm_compute; reflexivity|]. by repeat split.
Qed.

(** ** The ROI metrics: bounds and monotonicity *)
















(** ** The simulated curves *)

(** What the simulation loop returns, entry by entry, whatever the data. *)
Lemma simulate_loop_inv total_fractions mean_dose air_dose voxel_indices
    relative_volumes voxel_volume_cc t1 t2 (xs : list Z) :
  ∀ (CG CG' : list Q * list Q),
  for_fold xs (λ x '(CG_v6000, CG_v6200),
    dose ← future_total_dose total_fractions mean_dose air_dose x;
    '(v6000, v6200) ← roi_metrics dose voxel_indices relative_volumes
                        voxel_volume_cc t1 t2;
    Ret (CG_v6000 ++ [v6000], CG_v6200 ++ [v6200])) CG = Ret CG' →
  ∃ entries : list (Q * Q),
    Forall2 (λ x m, ∃ g,
        future_total_dose total_fractions mean_dose air_dose x = Ret g
        ∧ roi_metrics g voxel_indices relative_volumes voxel_volume_cc t1 t2
          = Ret m) xs entries
    ∧ CG' = (CG.1 ++ entries.*1, CG.2 ++ entries.*2).
Proof.
  induction xs as [|x xs IH]; intros [c1 c2] CG'; simpl.
  { intros [= <-]. exists []. split; [constructor|]. by rewrite !app_nil_r. }
  destruct (future_total_dose _ _ _ x) as [g| |] eqn:Hg; [|done..]. simpl.
  destruct (roi_metrics g _ _ _ _ _) as [[v1 v2]| |] eqn:Hm; [|done..]. simpl.
  intros (entries & Hall & ->)%IH.
  exists ((v1, v2) :: entries). split.
  - constructor; [by exists g|done].
  - simpl. by rewrite <- !app_assoc.
Qed.

Lemma simulate_inv total_fractions delivered_fractions mean_dose air_dose
    voxel_indices relative_volumes voxel_volume_cc t1 t2 CG_v6000 CG_v6200 :
  simulate total_fractions delivered_fractions mean_dose air_dose voxel_indices
    relative_volumes voxel_volume_cc t1 t2 ([], []) = Ret (CG_v6000, CG_v6200) →
  ∃ entries : list (Q * Q),
    Forall2 (λ x m, ∃ g,
        future_total_dose total_fractions mean_dose air_dose x = Ret g
        ∧ roi_metrics g voxel_indices relative_volumes voxel_volume_cc t1 t2
          = Ret m)
      (seqZ 1 (total_fractions - delivered_fractions)) entries
    ∧ CG_v6000 = entries.*1 ∧ CG_v6200 = entries.*2.
Proof.
  unfold simulate, range.
  replace (total_fractions - delivered_fractions + 1 - 1)
    with (total_fractions - delivered_fractions) by lia.
  intros (entries & Hall & [= -> ->])%simulate_loop_inv. eauto.
Qed.

Lemma simulate_lengths total_fractions delivered_fractions mean_dose air_dose
    voxel_indices relative_volumes voxel_volume_cc t1 t2 CG_v6000 CG_v6200 :
  simulate total_fractions delivered_fractions mean_dose air_dose voxel_indices
    relative_volumes voxel_volume_cc t1 t2 ([], []) = Ret (CG_v6000, CG_v6200) →
  length CG_v6000 = Z.to_nat (total_fractions - delivered_fractions)
  ∧ length CG_v6200 = Z.to_nat (total_fractions - delivered_fractions).
Proof.
  intros (entries & Hall & -> & ->)%simulate_inv.
  apply Forall2_length in Hall. rewrite length_seqZ in Hall.
  by rewrite !length_fmap.
Qed.

(** ** Runs on arbitrary data *)

Lemma TreatmentFractions_at_cases rs i :
  (∃ f, TreatmentFractions_at rs i = Ret f
        ∧ 0 ≤ i < Z.of_nat (length (TreatmentFractions rs)))
  ∨ (TreatmentFractions_at rs i = Raise IndexError
     ∧ ¬ 0 ≤ i < Z.of_nat (length (TreatmentFractions rs))).
Proof.
  unfold TreatmentFractions_at. case_decide; [|right; split; [done|lia]].
  destruct (TreatmentFractions rs !! Z.to_nat i) as [f|] eqn:Hf; simpl.
  - left. exists f. split; [done|]. apply lookup_lt_Some in Hf. lia.
  - right. split; [done|]. apply lookup_ge_None in Hf. lia.
Qed.

Lemma iadd_not_exit acc g : np.iadd acc g ≠ SystemExit.
Proof.
  pose proof (iadd_cases acc g) as H.
  destruct (np.broadcast_to _ _); [destruct H as [? ->]|rewrite H]; done.
Qed.

(** One pass through the body of the loop on arbitrary data: only the
    accumulator can change, and at most the read of fraction [i] is added. *)
Lemma accumulate_step_any rs h acc tr i :
  ∃ r acc' evs,
    (d ← get_DoseData rs i; iadd (length h) d) (State (h ++ [acc]) tr)
    = (r, State (h ++ [acc']) (evs ++ tr))
    ∧ (evs = [] ∨ evs = [Read_DoseData i]
                   ∧ 0 ≤ i < Z.of_nat (length (TreatmentFractions rs)))
    ∧ (r = Ret () → evs = [Read_DoseData i])
    ∧ r ≠ SystemExit.
Proof.
  unfold get_DoseData, iadd, mbind, M_bind, lift, load, emit, store.
  destruct (TreatmentFractions_at_cases rs i) as [(f & -> & Hi)|[-> _]].
  2:{ exists (Raise IndexError), acc, []. by repeat split; [left|..]. }
  simpl. rewrite lookup_accumulator. simpl.
  destruct ((h ++ [acc]) !! DoseData f) as [g|]; simpl.
  2:{ exists (Raise AttributeError), acc, [Read_DoseData i].
      by repeat split; [right|..]. }
  pose proof (iadd_not_exit acc g).
  destruct (np.iadd acc g) as [acc'| |e]; simpl; [|done|].
  - rewrite store_accumulator. exists (Ret ()), acc', [Read_DoseData i].
    by repeat split; [right|..].
  - exists (Raise e), acc, [Read_DoseData i]. by repeat split; [right|..].
Qed.

Lemma accumulate_loop_any rs idx : ∀ h acc tr,
  ∃ r acc' evs,
    for_ idx (λ i, d ← get_DoseData rs i; iadd (length h) d)
         (State (h ++ [acc]) tr)
    = (r, State (h ++ [acc']) (evs ++ tr))
    ∧ Forall (λ e, ∃ i, i ∈ idx ∧ e = Read_DoseData i) evs
    ∧ (r = Ret () →
       evs = reverse (Read_DoseData <$> idx)
       ∧ ∀ i, i ∈ idx → 0 ≤ i < Z.of_nat (length (TreatmentFractions rs)))
    ∧ r ≠ SystemExit.
Proof.
  induction idx as [|i idx IH]; intros h acc tr.
  { exists (Ret ()), acc, []. repeat split; try done;
      by match goal with H : _ ∈ [] |- _ => apply elem_of_nil in H end. }
  simpl. unfold mbind at 1, M_bind at 1.
  destruct (accumulate_step_any rs h acc tr i)
    as (r & acc1 & evs1 & -> & Hevs1 & Hret & Hexit).
  destruct r as [[]| |e]; [|done|].
  - destruct (IH h acc1 (evs1 ++ tr)) as (r & acc2 & evs2 & -> & Hevs2 & Hret2 & ?).
    rewrite (Hret eq_refl) in *.
    destruct Hevs1 as [?|[_ Hi]]; [done|].
    exists r, acc2, (evs2 ++ [Read_DoseData i]).
    split; [by rewrite <- app_assoc|]. split; [|split; [|done]].
    + apply Forall_app. split.
      * eapply Forall_impl; [done|]. intros e (j & ? & ->).
        exists j. split; [by right|done].
      * repeat constructor. exists i. split; [by left|done].
    + intros Hr. destruct (Hret2 Hr) as [-> Hall]. split.
      * simpl. by rewrite reverse_cons.
      * intros j [->|Hj]%elem_of_cons; [done|by apply Hall].
  - exists (Raise e), acc1, evs1. split; [done|]. split; [|done].
    destruct Hevs1 as [->|[-> _]]; repeat constructor.
    exists i. split; [by left|done].
Qed.

(** The block [accumulate] on arbitrary data. *)
Lemma accumulate_any rs grid_shape delivered_fractions h tr :
  ∃ r summed evs,
    accumulate rs grid_shape delivered_fractions (State h tr)
    = (r, State (h ++ [summed]) (evs ++ tr))
    ∧ Forall (λ e, ∃ i, 0 ≤ i < delivered_fractions ∧ e = Read_DoseData i) evs
    ∧ ((∃ v, r = Ret v) →
       evs = reverse (Read_DoseData <$> range 0 delivered_fractions)
       ∧ delivered_fractions ≤ Z.of_nat (length (TreatmentFractions rs)))
    ∧ r ≠ SystemExit.
Proof.
  unfold accumulate. unfold mbind at 1, M_bind at 1. unfold alloc at 1. simpl.
  unfold mbind at 1, M_bind at 1.
  destruct (accumulate_loop_any rs (range 0 delivered_fractions) h
              (np.zeros [z_ grid_shape; y_ grid_shape; x_ grid_shape]) tr)
    as (r & summed & evs & -> & Hevs & Hret & Hexit).
  assert (Forall (λ e, ∃ i, 0 ≤ i < delivered_fractions ∧ e = Read_DoseData i)
                 evs) as Hevs'.
  { eapply Forall_impl; [done|]. intros e (i & Hi & ->). exists i.
    split; [|done]. unfold range in Hi. apply elem_of_seqZ in Hi. lia. }
  destruct r as [[]| |e]; [|done|].
  - unfold mbind, M_bind, load, mret, M_ret. simpl.
    rewrite lookup_accumulator. simpl.
    eexists _, summed, evs. split; [done|]. split; [done|].
    split; [|done]. intros _. destruct (Hret eq_refl) as [-> Hall].
    split; [done|].
    destruct (decide (delivered_fractions ≤ 0)) as [|Hpos]; [lia|].
    specialize (Hall (delivered_fractions - 1)).
    unfold range in Hall. rewrite elem_of_seqZ in Hall. lia.
  - exists (Raise e), summed, evs. split; [done|]. split; [done|].
    split; [|done]. by intros [? ?].
Qed.

Lemma roi_metrics_not_exit dose idx w vv t1 t2 :
  roi_metrics dose idx w vv t1 t2 ≠ SystemExit.
Proof.
  unfold roi_metrics.
  destruct (take_cases (np.flatten dose) idx) as [(l & -> & _)| ->]; [|done].
  simpl. unfold np.select. by case_decide.
Qed.

Lemma binop_not_exit f a b : np.binop f a b ≠ SystemExit.
Proof. unfold np.binop. by destruct (_ ≫= _). Qed.

Lemma simulate_loop_not_exit total_fractions mean_dose air_dose voxel_indices
    relative_volumes voxel_volume_cc t1 t2 (xs : list Z) :
  ∀ CG : list Q * list Q,
  for_fold xs (λ x '(CG_v6000, CG_v6200),
    dose ← future_total_dose total_fractions mean_dose air_dose x;
    '(v6000, v6200) ← roi_metrics dose voxel_indices relative_volumes
                        voxel_volume_cc t1 t2;
    Ret (CG_v6000 ++ [v6000], CG_v6200 ++ [v6200])) CG ≠ SystemExit.
Proof.
  induction xs as [|x xs IH]; intros [c1 c2]; simpl; [done|].
  pose proof (binop_not_exit Qplus (np.rmul (total_fractions - x) mean_dose)
                (np.rmul x air_dose)) as Hadd.
  unfold future_total_dose, np.add.
  destruct (np.binop _ _ _) as [g| |]; [|done..]. simpl.
  pose proof (roi_metrics_not_exit g voxel_indices relative_volumes
                voxel_volume_cc t1 t2).
  destruct (roi_metrics g _ _ _ _ _) as [[v1 v2]| |]; [|done..]. simpl.
  apply IH.
Qed.

(** The block [current_goals] on arbitrary data. *)
Lemma current_goals_any rs total_fractions delivered_fractions h tr :
  ∃ r ext evs,
    current_goals rs total_fractions delivered_fractions (State h tr)
    = (r, State (h ++ ext) (evs ++ tr))
    ∧ (length ext ≤ 1)%nat
    ∧ Forall (λ e, read_within delivered_fractions e ∧ is_read e) evs
    ∧ ((∃ L, r = Ret L) →
       delivered_fractions ≤ Z.of_nat (length (TreatmentFractions rs)))
    ∧ r ≠ SystemExit.
Proof.
  unfold current_goals, get_InDoseGrid.
  destruct (TreatmentFractions_at_cases rs 0) as [(f0 & Hf0 & _)|[Hf0 _]].
  2:{ exists (Raise IndexError), [], [GetDoseGridRoi "Rectum"].
      unfold mbind, M_bind, emit, lift. simpl. rewrite Hf0, app_nil_r.
      repeat split; try done; [simpl; lia|by repeat constructor|by intros [??]]. }
  destruct (accumulate_any rs (NrVoxels f0) delivered_fractions h
              (Read_InDoseGrid 0 :: GetDoseGridRoi "Rectum" :: tr))
    as (racc & summed & evs & Hacc & Hevs & Hret & Hexit).
  assert (Forall (λ e, read_within delivered_fractions e ∧ is_read e)
            (evs ++ [Read_InDoseGrid 0; GetDoseGridRoi "Rectum"])) as Hall.
  { apply Forall_app. split; [|by repeat constructor].
    eapply Forall_impl; [done|]. intros e (i & Hi & ->). simpl. split; [lia|done]. }
  unfold mbind, M_bind, emit, lift, mret, M_ret. simpl. rewrite Hf0. simpl.
  simpl in Hacc. rewrite Hacc.
  destruct racc as [[l mean]| |e]; [|done|].
  - destruct (Hret (ex_intro _ _ eq_refl)) as [_ Hlen].
    pose proof (roi_metrics_not_exit (np.mul mean total_fractions)
      (VoxelIndices rs) (RelativeVolumes rs)
      (x_ (VoxelSize f0) * y_ (VoxelSize f0) * z_ (VoxelSize f0))%Q
      threshold_v6000 threshold_v6200) as Hm.
    destruct (roi_metrics _ _ _ _ _ _) as [[v1 v2]| |e]; [|done|].
    + eexists (Ret _), [summed],
        (evs ++ [Read_InDoseGrid 0; GetDoseGridRoi "Rectum"]).
      rewrite <- app_assoc. split; [reflexivity|].
      split; [simpl; lia|]. by repeat split.
    + exists (Raise e), [summed],
        (evs ++ [Read_InDoseGrid 0; GetDoseGridRoi "Rectum"]).
      rewrite <- app_assoc. split; [reflexivity|].
      split; [simpl; lia|]. split; [done|]. split; [by intros [??]|done].
  - exists (Raise e), [summed],
      (evs ++ [Read_InDoseGrid 0; GetDoseGridRoi "Rectum"]).
    rewrite <- app_assoc. split; [reflexivity|].
    split; [simpl; lia|]. split; [done|]. split; [by intros [??]|done].
Qed.

(** The block [predict] on arbitrary data. *)
Lemma predict_any rs total_fractions delivered_fractions L h tr :
  ∃ r evs,
    predict rs total_fractions delivered_fractions L (State h tr)
    = (r, State h (evs ++ tr))
    ∧ Forall (read_within delivered_fractions) evs
    ∧ match r with
      | Ret _ =>
          delivered_fractions < Z.of_nat (length (TreatmentFractions rs))
          ∧ ∃ CG_v6000 CG_v6200,
              evs = [plot_prediction CG_v6000 CG_v6200 delivered_fractions
                       total_fractions; Read_DoseData delivered_fractions]
              ∧ length CG_v6000
                = Z.to_nat (total_fractions - delivered_fractions)
              ∧ length CG_v6200
                = Z.to_nat (total_fractions - delivered_fractions)
      | SystemExit => False
      | Raise _ => Forall is_read evs
      end.
Proof.
  unfold predict, simulate_and_plot, get_DoseData.
  destruct (TreatmentFractions_at_cases rs delivered_fractions)
    as [(f & Hf & Hd)|[Hf _]];
    unfold mbind, M_bind, emit, lift, load, mret, M_ret; simpl; rewrite Hf; simpl.
  2:{ exists (Raise IndexError), []. by repeat split. }
  destruct (h !! DoseData f) as [air_dose|]; simpl.
  2:{ exists (Raise AttributeError), [Read_DoseData delivered_fractions].
      repeat split; repeat constructor; simpl; lia. }
  destruct (simulate total_fractions delivered_fractions (mean_dose L) air_dose
              (voxel_indices L) (relative_volumes L) (voxel_volume_cc L)
              threshold_v6000 threshold_v6200 ([], []))
    as [[c1 c2]| |e] eqn:Hsim; simpl.
  - eexists (Ret ()), [_; _]. split; [done|].
    split; [repeat constructor; simpl; lia|]. split; [lia|].
    exists c1, c2. split; [done|]. by eapply simulate_lengths.
  - exfalso. revert Hsim. unfold simulate. apply simulate_loop_not_exit.
  - exists (Raise e), [Read_DoseData delivered_fractions].
    repeat split; repeat constructor; simpl; lia.
Qed.

(** A run on arbitrary data: what it can change, read and show. *)
Lemma evaluate_any rs total_fractions delivered_fractions h tr :
  ∃ r ext evs,
    evaluate_rectal_air rs total_fractions delivered_fractions (State h tr)
    = (r, State (h ++ ext) (evs ++ tr))
    ∧ (length ext ≤ 1)%nat
    ∧ Forall (read_within delivered_fractions) evs
    ∧ match r with
      | Ret _ =>
          5 ≤ delivered_fractions < Z.of_nat (length (TreatmentFractions rs))
          ∧ ∃ CG_v6000 CG_v6200 evs',
              evs = plot_prediction CG_v6000 CG_v6200 delivered_fractions
                      total_fractions :: evs'
              ∧ Forall is_read evs'
              ∧ length CG_v6000
                = Z.to_nat (total_fractions - delivered_fractions)
              ∧ length CG_v6200
                = Z.to_nat (total_fractions - delivered_fractions)
      | SystemExit =>
          (delivered_fractions < 5
           ∨ delivered_fractions ≤ Z.of_nat (length (TreatmentFractions rs)))
          ∧ ∃ m evs', evs = MessageBox_Show m :: evs' ∧ Forall is_read evs'
      | Raise _ => 5 ≤ delivered_fractions ∧ Forall is_read evs
      end.
Proof.
  unfold evaluate_rectal_air. case_decide as Hgate.
  { exists SystemExit, [],
      [MessageBox_Show (InsufficientFractions delivered_fractions)].
    rewrite app_nil_r. split; [done|]. split; [simpl; lia|].
    split; [by repeat constructor|]. split; [by left|]. eauto. }
  destruct (current_goals_any rs total_fractions delivered_fractions h tr)
    as (rL & ext & evs & Hcur & Hext & Hevs & Hret & Hexit).
  unfold mbind at 1, M_bind at 1. rewrite Hcur.
  assert (Forall (read_within delivered_fractions) evs
          ∧ Forall is_read evs) as [Hrw Hrd].
  { split; (eapply Forall_impl; [done|]); by intros e [??]. }
  destruct rL as [L| |e]; [|done|].
  2:{ exists (Raise e), ext, evs. split; [done|]. repeat split; try done. lia. }
  specialize (Hret (ex_intro _ _ eq_refl)).
  destruct (goal_exceeded (current_v6000 L) (current_v6200 L)).
  { exists SystemExit, ext,
      (MessageBox_Show (RectalDoseTooHigh (current_v6000 L) (current_v6200 L))
       :: evs).
    split; [done|]. split; [done|]. split; [by constructor|].
    split; [by right|]. eauto. }
  destruct (predict_any rs total_fractions delivered_fractions L (h ++ ext)
              (evs ++ tr)) as (r & evs' & -> & Hevs' & Hr).
  exists r, ext, (evs' ++ evs). rewrite <- app_assoc.
  split; [done|]. split; [done|]. split; [by apply Forall_app|].
  destruct r as [[]| |e]; [|done|].
  - destruct Hr as (Hd & c1 & c2 & -> & Hc1 & Hc2). split; [lia|].
    exists c1, c2, (Read_DoseData delivered_fractions :: evs).
    repeat split; try done. by constructor.
  - split; [lia|]. by apply Forall_app.
Qed.

(** X4. Whatever the data and however a run ends, it leaves every array
    object that was there before as it is, and creates at most one new
    array (the accumulated dose). *)
Theorem evaluate_keeps_objects rs total_fractions delivered_fractions st :
  let st' := (evaluate_rectal_air rs total_fractions delivered_fractions st).2 in
  ∃ ext, heap st' = heap st ++ ext ∧ (length ext ≤ 1)%nat
         ∧ ∀ l a, heap st !! l = Some a → heap st' !! l = Some a.
Proof.
  destruct st as [h tr].
  destruct (evaluate_any rs total_fractions delivered_fractions h tr)
    as (r & ext & evs & Heq & Hext & _).
  simpl. rewrite Heq. simpl. exists ext. split; [done|]. split; [done|].
  intros l a Hl. rewrite lookup_app_l; [done|]. by eapply lookup_lt_Some.
Qed.

(** X5. Whatever the data and however a run ends, the only doses it reads
    are those of the fractions at the indices [0 .. delivered_fractions], and
    the only grid geometry that of the first fraction. *)
Theorem evaluate_reads_within rs total_fractions delivered_fractions st :
  let st' := (evaluate_rectal_air rs total_fractions delivered_fractions st).2 in
  ∃ evs, trace st' = evs ++ trace st
         ∧ Forall (read_within delivered_fractions) evs.
Proof.
  destruct st as [h tr].
  destruct (evaluate_any rs total_fractions delivered_fractions h tr)
    as (r & ext & evs & Heq & _ & Hevs & _).
  simpl. rewrite Heq. simpl. by exists evs.
Qed.

(** X6. A run shows something to the user exactly when it does not end with
    an exception, and then once, as its last action: a run that returns has
    just handed the curves to [plot_prediction], a run that exits has just
    shown a dialog, and a run that raises has shown neither. *)
Theorem evaluate_shows_last rs total_fractions delivered_fractions st :
  let run := evaluate_rectal_air rs total_fractions delivered_fractions st in
  ∃ evs, trace run.2 = evs ++ trace st
    ∧ match run.1 with
      | Ret _ =>
          ∃ CG_v6000 CG_v6200 evs',
            evs = plot_prediction CG_v6000 CG_v6200 delivered_fractions
                    total_fractions :: evs'
            ∧ Forall is_read evs'
      | SystemExit =>
          ∃ m evs', evs = MessageBox_Show m :: evs' ∧ Forall is_read evs'
      | Raise _ => Forall is_read evs
      end.
Proof.
  destruct st as [h tr].
  destruct (evaluate_any rs total_fractions delivered_fractions h tr)
    as (r & ext & evs & Heq & _ & _ & Hr).
  simpl. rewrite Heq. simpl. exists evs. split; [done|].
  destruct r as [[]| |e].
  - destruct Hr as (_ & c1 & c2 & evs' & -> & ? & _). eauto.
  - by destruct Hr as [_ ?].
  - by destruct Hr as [_ ?].
Qed.

(** X7. A run returns only for a count of delivered fractions that is at
    least 5 and below the number of entries of the delivery course; for a
    count of at least 5 that is beyond this number, it ends with an exception
    and shows nothing. *)
Theorem evaluate_beyond_course rs total_fractions delivered_fractions st :
  let run := evaluate_rectal_air rs total_fractions delivered_fractions st in
  (run.1 = Ret () →
   5 ≤ delivered_fractions < Z.of_nat (length (TreatmentFractions rs)))
  ∧ (5 ≤ delivered_fractions →
     Z.of_nat (length (TreatmentFractions rs)) < delivered_fractions →
     ∃ e evs, run.1 = Raise e ∧ trace run.2 = evs ++ trace st
              ∧ Forall is_read evs).
Proof.
  destruct st as [h tr].
  destruct (evaluate_any rs total_fractions delivered_fractions h tr)
    as (r & ext & evs & Heq & _ & _ & Hr).
  simpl. rewrite Heq. simpl. split.
  - intros ->. by destruct Hr as [? _].
  - intros Hge Hlen. destruct r as [[]| |e].
    + destruct Hr as [? _]. lia.
    + destruct Hr as [[?|?] _]; lia.
    + destruct Hr as [_ ?]. eauto.
Qed.

Lemma evaluate_beyond_course_witness :
  let run := evaluate_rectal_air short_rs 10 6 demo_state in
  (run.1 = Ret () → 5 ≤ 6 < Z.of_nat (length (TreatmentFractions short_rs)))
  ∧ ∃ e evs, run.1 = Raise e ∧ trace run.2 = evs ++ trace demo_state
             ∧ Forall is_read evs.
Proof.
  intros run.
  destruct (evaluate_beyond_course short_rs 10 6 demo_state) as [H1 H2].
  split; [exact H1|]. apply H2; [lia|simpl; lia].
Defined.

(** With six fractions asked for and five in the course, the run stops with
    an [IndexError] after the five reads. *)
Example evaluate_beyond_course_example :
  ∃ st', evaluate_rectal_air short_rs 10 6 demo_state = (Raise IndexError, st')
         ∧ head (trace st') = Some (Read_DoseData 4).
Proof. eexists. split; [vm_compute; reflexivity|]. reflexivity. Qed.

Lemma evaluate_keeps_objects_witness :
  let st' := (evaluate_rectal_air demo_rs 10 5 demo_state).2 in
  ∃ ext, heap st' = heap demo_state ++ ext ∧ (length ext ≤ 1)%nat
         ∧ ∀ l a, heap demo_state !! l = Some a → heap st' !! l = Some a.
Proof. apply (evaluate_keeps_objects demo_rs 10 5 demo_state). Defined.

(** ** The plots *)

Lemma range_length a b : length (range a b) = Z.to_nat (b - a).
Proof. apply length_seqZ. Qed.

Lemma draw_figure_ok fraction_numbers fraction_numbers_air CG goal :
  length fraction_numbers = length CG →
  length fraction_numbers_air = length fraction_numbers →
  draw_figure fraction_numbers fraction_numbers_air CG goal
  = Ret (Figure fraction_numbers (zip fraction_numbers CG) goal
           fraction_numbers fraction_numbers_air).
Proof.
  intros H1 H2. unfold draw_figure, ax_plot, set_xticklabels.
  rewrite decide_True by done. simpl. by rewrite decide_True by done.
Qed.

(** Curves with one entry per remaining fraction are plotted. *)
Lemma plot_prediction_shown CG_v6000 CG_v6200
    delivered_fractions total_fractions :
  length CG_v6000 = Z.to_nat (total_fractions - delivered_fractions) →
  length CG_v6200 = Z.to_nat (total_fractions - delivered_fractions) →
  ∃ fig1 fig2,
    Model_plot_prediction CG_v6000 CG_v6200 delivered_fractions total_fractions
    = ([plt_show fig2; plt_show fig1; PhysicianReviewRequired], Ret ()).
Proof.
  intros H1 H2. unfold Model_plot_prediction.
  rewrite !draw_figure_ok; [by eexists _, _|rewrite !range_length..];
    rewrite ?H1, ?H2; f_equal; lia.
Qed.

(** X8. Given curves with one entry per remaining fraction, [plot_prediction]
    raises nothing and shows its dialog and then both figures; in each
    figure the entry [k] of the curve (counting from 0) is plotted at the
    fraction number [delivered_fractions + 1 + k] and carries [k + 1] on the
    upper axis, the number of fractions with air it stands for.  Given a
    curve of another length, it raises a [ValueError] right after the
    dialog. *)
Theorem plot_prediction_aligned CG_v6000 CG_v6200
    delivered_fractions total_fractions :
  let remaining := Z.to_nat (total_fractions - delivered_fractions) in
  (length CG_v6000 = remaining → length CG_v6200 = remaining →
   ∃ fig1 fig2,
     Model_plot_prediction CG_v6000 CG_v6200 delivered_fractions total_fractions
     = ([plt_show fig2; plt_show fig1; PhysicianReviewRequired], Ret ())
     ∧ axhline fig1 = 3%Q ∧ axhline fig2 = 2%Q
     ∧ ∀ k : nat, (k < remaining)%nat →
         ∃ v6000 v6200,
           CG_v6000 !! k = Some v6000 ∧ CG_v6200 !! k = Some v6200
           ∧ line fig1 !! k
             = Some (delivered_fractions + 1 + Z.of_nat k, v6000)
           ∧ line fig2 !! k
             = Some (delivered_fractions + 1 + Z.of_nat k, v6200)
           ∧ xticks fig1 !! k = Some (delivered_fractions + 1 + Z.of_nat k)
           ∧ top_xticks fig1 !! k = Some (delivered_fractions + 1 + Z.of_nat k)
           ∧ top_xticklabels fig1 !! k = Some (1 + Z.of_nat k)
           ∧ top_xticklabels fig2 !! k = Some (1 + Z.of_nat k))
  ∧ (length CG_v6000 ≠ remaining →
     Model_plot_prediction CG_v6000 CG_v6200 delivered_fractions total_fractions
     = ([PhysicianReviewRequired], Raise ValueError)).
Proof.
  intros remaining.
  assert (length (range (delivered_fractions + 1) (total_fractions + 1))
          = remaining) as Hx.
  { rewrite range_length. unfold remaining. f_equal. lia. }
  assert (length (range 1 (total_fractions - delivered_fractions + 1))
          = remaining) as Ha.
  { rewrite range_length. unfold remaining. f_equal. lia. }
  split.
  - intros H1 H2. unfold Model_plot_prediction.
    rewrite !draw_figure_ok by congruence.
    eexists _, _. split; [reflexivity|]. split; [done|]. split; [done|].
    intros k Hk. simpl.
    destruct (lookup_lt_is_Some_2 CG_v6000 k) as [v1 Hv1]; [lia|].
    destruct (lookup_lt_is_Some_2 CG_v6200 k) as [v2 Hv2]; [lia|].
    assert (range (delivered_fractions + 1) (total_fractions + 1) !! k
            = Some (delivered_fractions + 1 + Z.of_nat k)) as Hxk.
    { unfold range. apply lookup_seqZ. unfold remaining in Hk. lia. }
    assert (range 1 (total_fractions - delivered_fractions + 1) !! k
            = Some (1 + Z.of_nat k)) as Hak.
    { unfold range. apply lookup_seqZ. unfold remaining in Hk. lia. }
    exists v1, v2. rewrite !lookup_zip_with, Hxk, Hv1, Hv2. by repeat split.
  - intros Hne. unfold Model_plot_prediction, draw_figure, ax_plot.
    rewrite decide_False by congruence. done.
Qed.

Lemma plot_prediction_aligned_witness :
  (∃ fig1 fig2,
     Model_plot_prediction [0; 50]%Q [0; 1]%Q 8 10
     = ([plt_show fig2; plt_show fig1; PhysicianReviewRequired], Ret ())
     ∧ axhline fig1 = 3%Q ∧ axhline fig2 = 2%Q
     ∧ ∀ k : nat, (k < Z.to_nat (10 - 8))%nat →
         ∃ v6000 v6200,
           [0; 50]%Q !! k = Some v6000 ∧ [0; 1]%Q !! k = Some v6200
           ∧ line fig1 !! k = Some (8 + 1 + Z.of_nat k, v6000)
           ∧ line fig2 !! k = Some (8 + 1 + Z.of_nat k, v6200)
           ∧ xticks fig1 !! k = Some (8 + 1 + Z.of_nat k)
           ∧ top_xticks fig1 !! k = Some (8 + 1 + Z.of_nat k)
           ∧ top_xticklabels fig1 !! k = Some (1 + Z.of_nat k)
           ∧ top_xticklabels fig2 !! k = Some (1 + Z.of_nat k))
  ∧ Model_plot_prediction [0]%Q [0; 1]%Q 8 10
    = ([PhysicianReviewRequired], Raise ValueError).
Proof.
  split.
  - apply (plot_prediction_aligned [0; 50]%Q [0; 1]%Q 8 10); reflexivity.
  - apply (plot_prediction_aligned [0]%Q [0; 1]%Q 8 10). simpl. lia.
Defined.

(** X9. The curves a run hands to [plot_prediction] always fit its axes:
    whenever [evaluate_rectal_air] returns, its last event is the call of
    [plot_prediction] with curves of [total_fractions - delivered_fractions]
    entries each, and this call shows both figures without an exception. *)
Theorem evaluate_plots_fit rs total_fractions delivered_fractions st :
  let run := evaluate_rectal_air rs total_fractions delivered_fractions st in
  run.1 = Ret () →
  ∃ CG_v6000 CG_v6200 tr fig1 fig2,
    trace run.2
    = plot_prediction CG_v6000 CG_v6200 delivered_fractions total_fractions :: tr
    ∧ length CG_v6000 = Z.to_nat (total_fractions - delivered_fractions)
    ∧ length CG_v6200 = Z.to_nat (total_fractions - delivered_fractions)
    ∧ Model_plot_prediction CG_v6000 CG_v6200 delivered_fractions total_fractions
      = ([plt_show fig2; plt_show fig1; PhysicianReviewRequired], Ret ()).
Proof.
  destruct st as [h tr].
  destruct (evaluate_any rs total_fractions delivered_fractions h tr)
    as (r & ext & evs & Heq & _ & _ & Hr).
  simpl. rewrite Heq. simpl. intros ->.
  destruct Hr as (_ & c1 & c2 & evs' & -> & _ & Hc1 & Hc2).
  destruct (plot_prediction_shown c1 c2 delivered_fractions total_fractions
              Hc1 Hc2) as (fig1 & fig2 & Hplot).
  exists c1, c2, (evs' ++ tr), fig1, fig2. by repeat split.
Qed.

Lemma evaluate_plots_fit_witness :
  ∃ CG_v6000 CG_v6200 tr fig1 fig2,
    trace (evaluate_rectal_air demo_rs 10 5 demo_state).2
    = plot_prediction CG_v6000 CG_v6200 5 10 :: tr
    ∧ length CG_v6000 = Z.to_nat (10 - 5)
    ∧ length CG_v6200 = Z.to_nat (10 - 5)
    ∧ Model_plot_prediction CG_v6000 CG_v6200 5 10
      = ([plt_show fig2; plt_show fig1; PhysicianReviewRequired], Ret ()).
Proof.
  apply (evaluate_plots_fit demo_rs 10 5 demo_state). vm_compute. reflexivity.
Defined.

(** ** Runs on data that fit *)

(** With grids of the shape of the dose grid for the delivered fractions and
    ROI lists that fit the grid, the current metrics are computed on a mean
    dose of that shape, and the heap gains the accumulated dose. *)
Lemma current_goals_well_formed rs total_fractions delivered_fractions st
    (grids : list ndarray) f0 :
  let s := [z_ (NrVoxels f0); y_ (NrVoxels f0); x_ (NrVoxels f0)] in
  1 ≤ delivered_fractions →
  Z.of_nat (length grids) = delivered_fractions →
  TreatmentFractions rs !! 0%nat = Some f0 →
  (∀ k g, grids !! k = Some g →
     ∃ f, TreatmentFractions rs !! k = Some f
          ∧ heap st !! DoseData f = Some g ∧ shape g = s ∧ np.wf g) →
  Forall (valid_index (np.size s)) (VoxelIndices rs) →
  length (VoxelIndices rs) = length (RelativeVolumes rs) →
  ∃ L st1 summed,
    current_goals rs total_fractions delivered_fractions st = (Ret L, st1)
    ∧ heap st1 = heap st ++ [summed]
    ∧ voxel_indices L = VoxelIndices rs
    ∧ relative_volumes L = RelativeVolumes rs
    ∧ shape (mean_dose L) = s ∧ np.wf (mean_dose L).
Proof.
  intros s Hpos Hn Hf0 Hgrids Hvalid Hlen.
  destruct (accumulate_same_shape rs (NrVoxels f0) delivered_fractions
              (State (heap st) (Read_InDoseGrid 0 :: GetDoseGridRoi "Rectum"
                                :: trace st)) grids Hpos Hn Hgrids)
    as (summed & mean & st' & Hacc & Hheap & Hshape & Hwf & _ & Hs & Hmean & _).
  assert (np.wf mean) as Hwfm.
  { unfold np.wf. by rewrite Hmean, length_fmap, Hwf, Hshape, Hs. }
  destruct (roi_metrics_defined (np.mul mean total_fractions) (VoxelIndices rs)
              (RelativeVolumes rs)
              (x_ (VoxelSize f0) * y_ (VoxelSize f0) * z_ (VoxelSize f0))%Q
              threshold_v6000 threshold_v6200) as [[v1 v2] Hm]; [|done|].
  { simpl. rewrite length_fmap, Hwfm, Hs. done. }
  unfold current_goals, get_InDoseGrid.
  rewrite (TreatmentFractions_at_lookup rs 0 f0) by done.
  unfold mbind, M_bind, emit, lift, mret, M_ret. simpl.
  simpl in Hacc. rewrite Hacc, Hm.
  eexists _, _, summed. split; [reflexivity|]. simpl. by repeat split.
Qed.

(** X10. On data that fit, a run past the first gate never ends with an
    exception: with at least 5 delivered fractions, their grids and the grid
    of the fraction with air in the heap, well formed and of the shape of the
    dose grid, and ROI lists of equal length with indices within the grid,
    the run ends with the dialog "Rectal Dose Too High" or with the plots. *)
Theorem evaluate_well_formed rs total_fractions delivered_fractions st
    (grids : list ndarray) f0 fa air_dose :
  let s := [z_ (NrVoxels f0); y_ (NrVoxels f0); x_ (NrVoxels f0)] in
  let run := evaluate_rectal_air rs total_fractions delivered_fractions st in
  5 ≤ delivered_fractions →
  Z.of_nat (length grids) = delivered_fractions →
  TreatmentFractions rs !! 0%nat = Some f0 →
  (∀ k g, grids !! k = Some g →
     ∃ f, TreatmentFractions rs !! k = Some f
          ∧ heap st !! DoseData f = Some g ∧ shape g = s ∧ np.wf g) →
  TreatmentFractions rs !! Z.to_nat delivered_fractions = Some fa →
  heap st !! DoseData fa = Some air_dose → shape air_dose = s → np.wf air_dose →
  Forall (valid_index (np.size s)) (VoxelIndices rs) →
  length (VoxelIndices rs) = length (RelativeVolumes rs) →
  decision run.1 run.2 = Some InterveneGoalExceeded
  ∨ decision run.1 run.2 = Some Proceed.
Proof.
  intros s run Hge Hn Hf0 Hgrids Hfa Hair Hsa Hwa Hvalid Hlen.
  destruct (current_goals_well_formed rs total_fractions delivered_fractions st
              grids f0) as (L & st1 & summed & Hcur & Hheap & Hidx & Hw & Hs & Hwm);
    [lia|done..|].
  subst s run. rewrite (evaluate_after_gate _ _ _ _ _ _ Hge Hcur).
  destruct (goal_exceeded _ _); [by left|]. right.
  unfold predict, simulate_and_plot, get_DoseData.
  rewrite (TreatmentFractions_at_lookup rs delivered_fractions fa) by (lia || done).
  unfold mbind, M_bind, emit, lift, load, mret, M_ret. simpl.
  rewrite Hheap, lookup_app_l by (by eapply lookup_lt_Some). rewrite Hair. simpl.
  unfold simulate.
  edestruct (simulate_entries total_fractions (mean_dose L) air_dose
      (voxel_indices L) (relative_volumes L) (voxel_volume_cc L)
      threshold_v6000 threshold_v6200
      (range 1 (total_fractions - delivered_fractions + 1)) ([], []))
    as (entries & _ & ->); [|done].
  intros x _. rewrite future_total_dose_same_shape by (done || congruence).
  edestruct roi_metrics_defined as [m Hm]; [| |eauto].
  - simpl. rewrite length_zip_with_l_eq by (unfold np.wf in *; congruence).
    rewrite Hidx, Hwm, Hs. done.
  - congruence.
Qed.

Lemma evaluate_well_formed_witness :
  let run := evaluate_rectal_air demo_rs 10 5 demo_state in
  decision run.1 run.2 = Some InterveneGoalExceeded
  ∨ decision run.1 run.2 = Some Proceed.
Proof.
  apply (evaluate_well_formed demo_rs 10 5 demo_state
           (replicate 5 (const_grid 200)) (fraction_at 0) (fraction_at 5)
           (const_grid 300)); try reflexivity; try lia.
  - intros k g Hg. exists (fraction_at k).
    do 5 (destruct k as [|k]; [simplify_eq/=; by repeat split|]).
    done.
  - repeat constructor; vm_compute; congruence.
Defined.

(** ** What a verdict says about the data *)

(** X11. The dialog "Insufficient Fractions" is shown only below 5 delivered
    fractions; the dialog "Rectal Dose Too High" only past that gate and with
    current metrics of which one reaches its clinical goal, which are the
    metrics it displays; and the plots only past that gate and with both
    current metrics below their clinical goals. *)
Theorem verdict_sound rs total_fractions delivered_fractions st :
  let run := evaluate_rectal_air rs total_fractions delivered_fractions st in
  match decision run.1 run.2 with
  | Some InterveneInsufficientData => delivered_fractions < 5
  | Some InterveneGoalExceeded =>
      5 ≤ delivered_fractions
      ∧ ∃ L st1,
          current_goals rs total_fractions delivered_fractions st = (Ret L, st1)
          ∧ (3 <= current_v6000 L ∨ 2 <= current_v6200 L)%Q
          ∧ head (trace run.2)
            = Some (MessageBox_Show
                      (RectalDoseTooHigh (current_v6000 L) (current_v6200 L)))
  | Some Proceed =>
      5 ≤ delivered_fractions
      ∧ ∃ L st1,
          current_goals rs total_fractions delivered_fractions st = (Ret L, st1)
          ∧ (current_v6000 L < 3)%Q ∧ (current_v6200 L < 2)%Q
  | None => True
  end.
Proof.
  destruct st as [h tr]. simpl. unfold evaluate_rectal_air.
  case_decide as Hgate; [done|].
  destruct (current_goals_any rs total_fractions delivered_fractions h tr)
    as (rL & ext & evs & Hcur & _ & _ & _ & Hexit).
  unfold mbind at 1 3 5, M_bind at 1 3 5. rewrite Hcur.
  destruct rL as [L| |e]; [|done..].
  destruct (goal_exceeded (current_v6000 L) (current_v6200 L)) eqn:Hgoal.
  - simpl. split; [lia|]. eexists L, _. split; [done|]. split; [|done].
    unfold goal_exceeded in Hgoal. apply orb_true_iff in Hgoal.
    destruct Hgoal as [H|H]; [left|right]; by apply Qle_bool_iff.
  - destruct (predict_any rs total_fractions delivered_fractions L (h ++ ext)
                (evs ++ tr)) as (r & evs' & -> & _ & Hr).
    destruct r as [[]| |e]; [|done..].
    destruct Hr as (_ & c1 & c2 & -> & _). simpl.
    split; [lia|]. eexists L, _. split; [done|].
    unfold goal_exceeded in Hgoal. apply orb_false_iff in Hgoal as [H1 H2].
    unfold dose_limit_v6000, volume_limit_v6200 in *.
    split; apply Qnot_le_lt; intros Hle%Qle_bool_iff; congruence.
Qed.

(** ** The counts of [get_fraction_info] *)

(** X12. The count of delivered fractions that [get_fraction_info] returns
    is at least -1 (no fraction marked as delivered) and below the number of
    entries of the delivery course, so that every fraction index up to this
    count exists; it is the last index of the course exactly when every
    fraction is marked as delivered. *)
Theorem get_fraction_info_bounds rs :
  let total := (get_fraction_info rs).1 in
  let delivered := (get_fraction_info rs).2 in
  let n := Z.of_nat (length (TreatmentFractions rs)) in
  total = Z.of_nat (plan_TreatmentFractions rs)
  ∧ -1 ≤ delivered < n
  ∧ (∀ i, 0 ≤ i ≤ delivered → ∃ f, TreatmentFractions_at rs i = Ret f)
  ∧ (delivered = n - 1
     ↔ Forall (λ f, Status f = "Delivered") (TreatmentFractions rs)).
Proof.
  simpl.
  pose proof (length_filter (λ f, Status f = "Delivered")
                (TreatmentFractions rs)) as Hle.
  split; [done|]. split; [lia|]. split.
  - intros i Hi.
    destruct (TreatmentFractions_at_cases rs i) as [(f & ? & _)|[_ Hn]];
      [eauto|lia].
  - split.
    + intros Heq. apply Forall_forall. intros f Hf.
      destruct (decide (Status f = "Delivered")) as [|Hne]; [done|].
      pose proof (length_filter_lt (λ f, Status f = "Delivered") _ f Hf Hne).
      lia.
    + intros Hall.
      assert (filter (λ f, Status f = "Delivered") (TreatmentFractions rs)
              = TreatmentFractions rs) as ->; [|lia].
      clear Hle. induction Hall as [|f l Hf _ IH]; [done|].
      by rewrite filter_cons_True, IH.
Qed.

Lemma get_fraction_info_bounds_witness :
  (get_fraction_info demo_rs).1 = Z.of_nat (plan_TreatmentFractions demo_rs)
  ∧ -1 ≤ (get_fraction_info demo_rs).2
       < Z.of_nat (length (TreatmentFractions demo_rs))
  ∧ (∀ i, 0 ≤ i ≤ (get_fraction_info demo_rs).2 →
       ∃ f, TreatmentFractions_at demo_rs i = Ret f)
  ∧ ((get_fraction_info demo_rs).2
     = Z.of_nat (length (TreatmentFractions demo_rs)) - 1
     ↔ Forall (λ f, Status f = "Delivered") (TreatmentFractions demo_rs)).
Proof. apply (get_fraction_info_bounds demo_rs). Defined.

(** ** The order of the reads *)

(** X13. When the accumulation succeeds, it has read the dose of each of the
    fractions [0 .. delivered_fractions - 1] once, in this order, whatever
    their status, and the course has at least that many entries. *)
Theorem accumulate_reads_in_order rs grid_shape delivered_fractions st :
  let run := accumulate rs grid_shape delivered_fractions st in
  (∃ v, run.1 = Ret v) →
  trace run.2
  = reverse (Read_DoseData <$> range 0 delivered_fractions) ++ trace st
  ∧ delivered_fractions ≤ Z.of_nat (length (TreatmentFractions rs)).
Proof.
  destruct st as [h tr].
  destruct (accumulate_any rs grid_shape delivered_fractions h tr)
    as (r & summed & evs & Heq & _ & Hret & _).
  simpl. rewrite Heq. simpl. intros Hr.
  destruct (Hret Hr) as [-> ?]. done.
Qed.

Lemma accumulate_reads_in_order_witness :
  let run := accumulate demo_rs (XYZ 2 1 1)%nat 5 demo_state in
  trace run.2 = reverse (Read_DoseData <$> range 0 5) ++ trace demo_state
  ∧ 5 ≤ Z.of_nat (length (TreatmentFractions demo_rs)).
Proof.
  apply (accumulate_reads_in_order demo_rs (XYZ 2 1 1)%nat 5 demo_state).
  eexists. vm_compute. reflexivity.
Defined.

(** ** Indices of the ROI *)

Lemma take_out_of_range d idx :
  Exists (λ j, ¬ valid_index (length d) j) idx → np.take d idx = Raise IndexError.
Proof.
  unfold np.take. induction 1 as [j idx Hj|j idx _ IH]; simpl.
  - unfold np.item. by rewrite decide_False by done.
  - destruct (item_cases d j) as [[v ->]| ->]; [|done]. simpl. by rewrite IH.
Qed.

(** X14. An index of the ROI beyond the flattened grid (at or above its
    number of voxels, or below minus that number) makes the metrics raise an
    [IndexError]; a negative index within that range is not rejected: it
    counts from the end of the grid, so the metrics are those for the indices
    taken modulo the number of voxels. *)
Theorem roi_metrics_indices dose voxel_indices relative_volumes voxel_volume_cc
    t1 t2 :
  let n := length (data dose) in
  (Exists (λ j, ¬ valid_index n j) voxel_indices →
   roi_metrics dose voxel_indices relative_volumes voxel_volume_cc t1 t2
   = Raise IndexError)
  ∧ (Forall (valid_index n) voxel_indices →
     roi_metrics dose voxel_indices relative_volumes voxel_volume_cc t1 t2
     = roi_metrics dose ((λ j, j `mod` Z.of_nat n) <$> voxel_indices)
         relative_volumes voxel_volume_cc t1 t2).
Proof.
  intros n. split.
  - intros Hbad. unfold roi_metrics, np.flatten.
    by rewrite take_out_of_range.
  - intros Hvalid. unfold roi_metrics, np.flatten.
    rewrite (take_valid _ _ Hvalid), take_valid.
    + assert ((λ j, data dose !!! Z.to_nat (j `mod` Z.of_nat (length (data dose))))
                <$> ((λ j, j `mod` Z.of_nat n) <$> voxel_indices)
              = (λ j, data dose !!! Z.to_nat (j `mod` Z.of_nat (length (data dose))))
                  <$> voxel_indices) as ->; [|done].
      rewrite <- list_fmap_compose. apply list_fmap_ext.
      intros i j _. simpl. fold n. by rewrite Zmod_mod.
    + apply Forall_fmap. eapply Forall_impl; [done|].
      intros j Hj. unfold valid_index in *. simpl. fold n.
      pose proof (Z.mod_pos_bound j (Z.of_nat n)). lia.
Qed.

Lemma roi_metrics_indices_witness :
  roi_metrics (const_grid 7000) [0; 2] [1 # 2; 1 # 2]%Q 1%Q 6000%Q 6200%Q
  = Raise IndexError
  ∧ roi_metrics (const_grid 7000) [0; -1] [1 # 2; 1 # 2]%Q 1%Q 6000%Q 6200%Q
    = roi_metrics (const_grid 7000)
        ((λ j, j `mod` Z.of_nat (length (data (const_grid 7000)))) <$> [0; -1])
        [1 # 2; 1 # 2]%Q 1%Q 6000%Q 6200%Q.
Proof.
  split.
  - apply (roi_metrics_indices (const_grid 7000) [0; 2]).
    apply Exists_cons_tl, Exists_cons_hd. unfold valid_index. simpl. lia.
  - apply (roi_metrics_indices (const_grid 7000) [0; -1]).
    repeat constructor; vm_compute; congruence.
Defined.
